(** * Password generator: generation and attack-cost model

    A shallow embedding of the generation utilities
    ([generatePassword], [generateWordBasedPassword], [getRandomNumber],
    [getRandomNumbers]) and of the brute-force simulator component
    ([calculatePasswordSpace], [calculateHashingSpeed],
    [calculateEnergyCost], the [animate] tick and the start / pause /
    reset handlers), followed by the properties established for them. *)

From Stdlib Require Import ZArith QArith Qround List String Ascii Bool Lia Lqa.
From Stdlib Require Import DecimalString Permutation.
Import ListNotations.

Local Open Scope Z_scope.

(* ------------------------------------------------------------------ *)
(** ** Exceptions and the generation monad *)

(** What a call can throw.  [Error msg] is [new Error(msg)]; the
    others are raised by the runtime itself: [RangeError] by
    [new Uint32Array(n)] for a negative [n], [TypeError] by a property
    read on [undefined], [QuotaExceededError] by
    [crypto.getRandomValues] on an array of more than 65536 bytes. *)
Inductive exn : Type :=
| Error (msg : string)
| RangeError
| TypeError
| QuotaExceededError.

Inductive outcome (A : Type) : Type :=
| Returned (a : A)
| Thrown (e : exn).
Arguments Returned {A} a.
Arguments Thrown {A} e.

(** The secure entropy source: the unbounded sequence of raw values
    that successive [crypto.getRandomValues] calls will hand out.  It
    is modelled as always available. *)
Definition entropy : Type := nat -> Z.

(** A computation that consumes entropy and may throw. *)
Definition Gen (A : Type) : Type := entropy -> outcome (A * entropy).

Definition ret {A} (a : A) : Gen A := fun e => Returned (a, e).

Definition throw {A} (x : exn) : Gen A := fun _ => Thrown x.

Definition bind {A B} (m : Gen A) (k : A -> Gen B) : Gen B :=
  fun e =>
    match m e with
    | Returned (a, e') => k a e'
    | Thrown x => Thrown x
    end.

Declare Scope gen_scope.
Delimit Scope gen_scope with gen.
Notation "x <- m ;; k" := (bind m (fun x => k))
  (at level 61, m at next level, right associativity) : gen_scope.

(* ------------------------------------------------------------------ *)
(** ** cryptoUtils *)

Module CryptoUtils.

(** A [Uint32Array] cell holds its value modulo 2^32. *)
Definition uint32 (z : Z) : Z := z mod 2 ^ 32.

(** The most bytes one [crypto.getRandomValues] call fills. *)
Definition QUOTA_BYTES : Z := 65536.

(** [crypto.getRandomValues] on a fresh [Uint32Array] of [n] cells, of
    four bytes each: beyond the quota it throws and fills nothing. *)
Definition getRandomValues (n : nat) : Gen (list Z) :=
  fun e =>
    if QUOTA_BYTES <? 4 * Z.of_nat n then Thrown QuotaExceededError
    else Returned (map (fun i => uint32 (e i)) (seq 0 n),
                   fun i => e (i + n)%nat).

(** [getRandomNumber(max)]: one raw value reduced modulo [max].  The
    remainder by zero is [NaN], rendered here as [None]. *)
Definition getRandomNumber (max : Z) : Gen (option Z) :=
  (cryptoValue <- getRandomValues 1 ;;
   ret (if max =? 0 then None else Some (nth 0 cryptoValue 0 mod max)))%gen.

(** [getRandomNumbers(length)]: allocating a typed array of negative
    length raises [RangeError]. *)
Definition getRandomNumbers (length : Z) : Gen (list Z) :=
  if length <? 0 then throw RangeError
  else getRandomValues (Z.to_nat length).

End CryptoUtils.

(* ------------------------------------------------------------------ *)
(** ** types *)

Inductive Language : Type := en | es.

Record PasswordOptions : Type := {
  length : Z;
  includeLowercase : bool;
  includeUppercase : bool;
  includeNumbers : bool;
  includeSymbols : bool;
  excludeAmbiguous : bool;
  wordCount : Z;
  wordSeparator : string;
  wordLanguage : Language
}.

(* ------------------------------------------------------------------ *)
(** ** constants/wordLists *)

Local Open Scope string_scope.
Local Open Scope Z_scope.

Definition ENGLISH_WORDS : list string :=
  ["love"; "star"; "rock"; "blue"; "dragon"; "red"; "black"; "angel"].

Definition SPANISH_WORDS : list string :=
  ["agua"; "aire"; "alma"; "amigo"; "amor"; "angel"; "arbol"; "arena"].

(** [WORDS_BY_LANGUAGE[key]]; a key that is [undefined] ([None]) finds
    nothing. *)
Definition WORDS_BY_LANGUAGE (key : option Language) : option (list string) :=
  match key with
  | Some en => Some ENGLISH_WORDS
  | Some es => Some SPANISH_WORDS
  | None => None
  end.

(* ------------------------------------------------------------------ *)
(** ** passwordGenerator *)

Module Generator.
Import CryptoUtils.

(** [s[i]] on a string: the one-character string at index [i], or
    [undefined] when [i] is out of range. *)
Definition charAtIndex (s : string) (i : Z) : option string :=
  if i <? 0 then None
  else match String.get (Z.to_nat i) s with
       | Some c => Some (String c EmptyString)
       | None => None
       end.

(** [password += x]: appending [undefined] appends its name. *)
Definition appendValue (password : string) (x : option string) : string :=
  password ++ match x with Some s => s | None => "undefined" end.

Definition includes (set : string) (char : ascii) : bool :=
  existsb (Ascii.eqb char) (list_ascii_of_string set).

Definition filterChars (f : ascii -> bool) (s : string) : string :=
  string_of_list_ascii (filter f (list_ascii_of_string s)).

(** The body of the [for] loop of [generatePassword], from index [i],
    for [n] more iterations. *)
Fixpoint fillPassword (chars : string) (cryptoValues : list Z)
         (i : nat) (n : nat) (password : string) : string :=
  match n with
  | O => password
  | S n' =>
      let idx := nth_error cryptoValues i in
      let pick :=
        match idx with
        | Some v => charAtIndex chars (v mod Z.of_nat (String.length chars))
        | None => None
        end in
      fillPassword chars cryptoValues (S i) n' (appendValue password pick)
  end.

Section WithCharacterSets.

(** The five constants of [constants/characterSets]. *)
Variables LOWERCASE_CHARS UPPERCASE_CHARS NUMBER_CHARS SYMBOL_CHARS
          AMBIGUOUS_CHARS : string.

(** Lines 13-23 of [generatePassword]: the assembled alphabet. *)
Definition assembleChars (options : PasswordOptions) : string :=
  let chars := "" in
  let chars := if includeLowercase options then chars ++ LOWERCASE_CHARS else chars in
  let chars := if includeUppercase options then chars ++ UPPERCASE_CHARS else chars in
  let chars := if includeNumbers options then chars ++ NUMBER_CHARS else chars in
  let chars := if includeSymbols options then chars ++ SYMBOL_CHARS else chars in
  if excludeAmbiguous options
  then filterChars (fun char => negb (includes AMBIGUOUS_CHARS char)) chars
  else chars.

Definition generatePassword (options : PasswordOptions) : Gen string :=
  let chars := assembleChars options in
  if (String.length chars =? 0)%nat
  then throw (Error "At least one character set must be selected")
  else
    (cryptoValues <- getRandomNumbers (length options) ;;
     ret (fillPassword chars cryptoValues 0 (Z.to_nat (length options)) ""))%gen.

(** [c] occurs in the string [s]. *)
Definition occurs (c : ascii) (s : string) : Prop :=
  In c (list_ascii_of_string s).

(** The alphabet as the configuration describes it: [c] belongs to an
    enabled class and, when ambiguous characters are excluded, is not
    one of them. *)
Definition inAlphabet (options : PasswordOptions) (c : ascii) : Prop :=
  ((includeLowercase options = true /\ occurs c LOWERCASE_CHARS) \/
   (includeUppercase options = true /\ occurs c UPPERCASE_CHARS) \/
   (includeNumbers options = true /\ occurs c NUMBER_CHARS) \/
   (includeSymbols options = true /\ occurs c SYMBOL_CHARS))
  /\ (excludeAmbiguous options = true -> ~ occurs c AMBIGUOUS_CHARS).

End WithCharacterSets.

(** [options.language]: [PasswordOptions] declares no property of that
    name, so the read yields [undefined]. *)
Definition options_language (options : PasswordOptions) : option Language :=
  None.

(** [word.charAt(0).toUpperCase()] on the ASCII letters the word lists
    hold. *)
Definition toUpperCase (c : ascii) : ascii :=
  let n := nat_of_ascii c in
  if ((97 <=? n) && (n <=? 122))%nat then ascii_of_nat (n - 32) else c.

Definition capitalizeFirstLetter (word : string) : string :=
  match word with
  | EmptyString => EmptyString
  | String c rest => String (toUpperCase c) rest
  end.

(** [n.toString()] for the value of [getRandomNumber(900) + 100]. *)
Definition numberToString (n : option Z) : string :=
  match n with
  | Some z => NilZero.string_of_int (Z.to_int z)
  | None => "NaN"
  end.

(** One call of the [Array.from] callback.  Reading [.length] of an
    [undefined] word list throws, and so does [charAt] on the
    [undefined] an out-of-range index returns. *)
Definition drawWord (wordList : option (list string)) : Gen string :=
  match wordList with
  | None => throw TypeError
  | Some l =>
      (i <- getRandomNumber (Z.of_nat (List.length l)) ;;
       match i with
       | Some k =>
           match nth_error l (Z.to_nat k) with
           | Some w => ret (capitalizeFirstLetter w)
           | None => throw TypeError
           end
       | None => throw TypeError
       end)%gen
  end.

(** [Array.from({ length: n }, f)]: [n] calls in index order. *)
Fixpoint arrayFrom {A} (n : nat) (f : Gen A) : Gen (list A) :=
  match n with
  | O => ret []
  | S n' => (x <- f ;; xs <- arrayFrom n' f ;; ret (x :: xs))%gen
  end.

(** Lines 44-52 of [generateWordBasedPassword], once the word list has
    been looked up. *)
Definition joinWords (wordList : option (list string))
           (options : PasswordOptions) : Gen string :=
  (words <- arrayFrom (Z.to_nat (wordCount options)) (drawWord wordList) ;;
   words <- (if includeNumbers options
             then (n <- getRandomNumber 900 ;;
                   ret (words ++ [numberToString (option_map (Z.add 100) n)])%list)
             else ret words) ;;
   ret (String.concat (wordSeparator options) words))%gen.

Definition generateWordBasedPassword (options : PasswordOptions) : Gen string :=
  let wordList := WORDS_BY_LANGUAGE (options_language options) in
  joinWords wordList options.

(** *** Concrete inputs

    The defaults of the generator form, a lowercase-only configuration
    of a given length, and an arbitrary entropy sequence. *)

Definition defaultOptions : PasswordOptions :=
  {| length := 16;
     includeLowercase := true; includeUppercase := true;
     includeNumbers := true; includeSymbols := true;
     excludeAmbiguous := false;
     wordCount := 4; wordSeparator := "-"; wordLanguage := en |}.

Definition lowercaseOnly (n : Z) : PasswordOptions :=
  {| length := n;
     includeLowercase := true; includeUppercase := false;
     includeNumbers := false; includeSymbols := false;
     excludeAmbiguous := false;
     wordCount := 4; wordSeparator := "-"; wordLanguage := en |}.

Definition noClass (n : Z) : PasswordOptions :=
  {| length := n;
     includeLowercase := false; includeUppercase := false;
     includeNumbers := false; includeSymbols := false;
     excludeAmbiguous := true;
     wordCount := 4; wordSeparator := "-"; wordLanguage := en |}.

Definition sampleEntropy : entropy :=
  fun i => 2654435761 * Z.of_nat (S i).

Definition lowercaseLetters : string := "abcdefghijklmnopqrstuvwxyz".
Definition uppercaseLetters : string := "ABCDEFGHIJKLMNOPQRSTUVWXYZ".
Definition digits : string := "0123456789".
Definition symbols : string := "!@#$%^&*()_+-=[]{}|;:,.<>?".
Definition ambiguous : string := "il1Lo0O".

End Generator.

(* ------------------------------------------------------------------ *)
(** ** Numbers

    A JavaScript number is modelled as an exact rational or one of the
    three special values; the rounding of IEEE doubles and the sign of
    zero are not modelled.  A double holds every integer up to 2^53
    exactly, so a statement that names the value of a power or of a
    search space is made within that range; beyond it the statements
    are orders, bounds and equivalences, which rounding to the nearest
    double preserves. *)

Module JSNumber.

Local Open Scope Q_scope.

Inductive number : Type :=
| NaN
| PosInf
| NegInf
| Fin (q : Q).

Definition of_Z (z : Z) : number := Fin (inject_Z z).

(** The sign of a number that is not [NaN], as a comparison with zero. *)
Definition sgn (a : number) : comparison :=
  match a with
  | Fin q => q ?= 0
  | NegInf => Lt
  | _ => Gt
  end.

Definition num_mul (a b : number) : number :=
  match a, b with
  | NaN, _ | _, NaN => NaN
  | Fin x, Fin y => Fin (x * y)
  | _, _ =>
      match sgn a, sgn b with
      | Eq, _ | _, Eq => NaN
      | Lt, Lt | Gt, Gt => PosInf
      | _, _ => NegInf
      end
  end.

Definition num_div (a b : number) : number :=
  match a, b with
  | NaN, _ | _, NaN => NaN
  | Fin x, Fin y =>
      if Qeq_bool y 0
      then match x ?= 0 with
           | Eq => NaN
           | Gt => PosInf
           | Lt => NegInf
           end
      else Fin (x / y)
  | Fin _, _ => Fin 0
  | _, Fin y =>
      match sgn a, y ?= 0 with
      | Gt, Lt | Lt, Eq | Lt, Gt => NegInf
      | _, _ => PosInf
      end
  | _, _ => NaN
  end.

Definition num_sub (a b : number) : number :=
  match a, b with
  | NaN, _ | _, NaN => NaN
  | Fin x, Fin y => Fin (x - y)
  | PosInf, PosInf | NegInf, NegInf => NaN
  | PosInf, _ | _, NegInf => PosInf
  | NegInf, _ | _, PosInf => NegInf
  end.

Definition Math_floor (a : number) : number :=
  match a with
  | Fin q => of_Z (Qfloor q)
  | _ => a
  end.

Definition Math_ceil (a : number) : number :=
  match a with
  | Fin q => of_Z (Qceiling q)
  | _ => a
  end.

Definition Math_max (a b : number) : number :=
  match a, b with
  | NaN, _ | _, NaN => NaN
  | PosInf, _ | _, PosInf => PosInf
  | NegInf, c | c, NegInf => c
  | Fin x, Fin y => if Qle_bool x y then Fin y else Fin x
  end.

Definition Math_min (a b : number) : number :=
  match a, b with
  | NaN, _ | _, NaN => NaN
  | NegInf, _ | _, NegInf => NegInf
  | PosInf, c | c, PosInf => c
  | Fin x, Fin y => if Qle_bool x y then Fin x else Fin y
  end.

(** [Math.pow] on integer arguments. *)
Definition Math_pow (base exponent : Z) : number :=
  if (0 <=? exponent)%Z then of_Z (base ^ exponent)
  else if (base =? 0)%Z then PosInf
  else Fin (1 / inject_Z (base ^ (- exponent))).

(** [a < b]; every comparison with [NaN] is false. *)
Definition num_ltb (a b : number) : bool :=
  match a, b with
  | NaN, _ | _, NaN => false
  | Fin x, Fin y => negb (Qle_bool y x)
  | NegInf, NegInf | PosInf, _ => false
  | NegInf, _ => true
  | Fin _, PosInf => true
  | Fin _, NegInf => false
  end.

(** [a === b]: [NaN] equals nothing, itself included. *)
Definition num_eq (a b : number) : Prop :=
  match a, b with
  | Fin x, Fin y => x == y
  | PosInf, PosInf | NegInf, NegInf => True
  | _, _ => False
  end.

(** [a <= b]. *)
Definition num_le (a b : number) : Prop :=
  match a, b with
  | NaN, _ | _, NaN => False
  | Fin x, Fin y => x <= y
  | NegInf, _ | _, PosInf => True
  | _, _ => False
  end.

Section Log2.

(** The double the platform's [Math.log2] returns on a positive finite
    argument. *)
Variable log2_approx : Q -> Q.

Definition Math_log2 (a : number) : number :=
  match a with
  | NaN | NegInf => NaN
  | PosInf => PosInf
  | Fin q =>
      match q ?= 0 with
      | Lt => NaN
      | Eq => NegInf
      | Gt => Fin (log2_approx q)
      end
  end.

End Log2.

End JSNumber.

(* ------------------------------------------------------------------ *)
(** ** BruteForceSimulator *)

Module Simulator.
Import JSNumber.

Local Open Scope Q_scope.

Inductive MethodId : Type := sequential | dictionary | hybrid.

Inductive HardwareKey : Type :=
| cpu_basic | cpu_multi | gpu_gaming | gpu_mining
| cluster_small | cluster_large.

Definition MethodId_eqb (a b : MethodId) : bool :=
  match a, b with
  | sequential, sequential | dictionary, dictionary | hybrid, hybrid => true
  | _, _ => false
  end.

(** [BruteForceSimulation] of the types module. *)
Record BruteForceSimulation : Type := {
  method : MethodId;
  isRunning : bool;
  progress : number;
  hardware : HardwareKey
}.

Record SimulationStats : Type := {
  attempts : number;
  timeElapsed : Q;
  remainingCombinations : number;
  successRate : Q;
  estimatedTimeToComplete : number;
  energyCost : number;
  passwordsPerWatt : number
}.

(** The fields of [AttackMethod] and of a hardware profile that enter
    a computation; the icon is left out. *)
Record AttackMethod : Type := {
  id : MethodId;
  method_name : string;
  method_description : string;
  method_baseSpeed : Q;
  method_successRate : Q;
  complexityMultiplier : Q
}.

Record HardwareProfile : Type := {
  name : string;
  baseSpeed : Z;
  powerCost : Q;
  description : string;
  specs : string
}.

Definition HARDWARE_PROFILES (key : HardwareKey) : HardwareProfile :=
  match key with
  | cpu_basic =>
      {| name := "CPU Basic"; baseSpeed := 500000; powerCost := 65 # 1000;
         description := "Basic CPU (2 cores)";
         specs := "2 cores @ 2.4GHz, 4GB RAM" |}
  | cpu_multi =>
      {| name := "CPU Multi-Core"; baseSpeed := 2000000; powerCost := 125 # 1000;
         description := "High-end CPU (8 cores)";
         specs := "8 cores @ 3.8GHz, 16GB RAM" |}
  | gpu_gaming =>
      {| name := "Gaming GPU"; baseSpeed := 100000000; powerCost := 25 # 100;
         description := "Gaming graphics card";
         specs := "8GB VRAM, 2560 cores" |}
  | gpu_mining =>
      {| name := "Mining GPU"; baseSpeed := 500000000; powerCost := 3 # 10;
         description := "Specialized mining GPU";
         specs := "16GB HBM2, 4096 cores" |}
  | cluster_small =>
      {| name := "Small Cluster"; baseSpeed := 2000000000; powerCost := 8 # 10;
         description := "Small compute cluster";
         specs := "10 nodes, 80 cores total" |}
  | cluster_large =>
      {| name := "Large Cluster"; baseSpeed := 10000000000; powerCost := 25 # 10;
         description := "Large compute cluster";
         specs := "100 nodes, 800 cores total" |}
  end.

Definition sequentialAttack : AttackMethod :=
  {| id := sequential; method_name := "Brute Force Attack";
     method_description :=
       "Tests every possible combination systematically. Most thorough but slowest method.";
     method_baseSpeed := 1; method_successRate := 1;
     complexityMultiplier := 1 |}.

Definition dictionaryAttack : AttackMethod :=
  {| id := dictionary; method_name := "Dictionary Attack";
     method_description :=
       "Uses common passwords and words. Very fast but limited coverage.";
     method_baseSpeed := 100; method_successRate := 15 # 100;
     complexityMultiplier := 1 # 10 |}.

Definition hybridAttack : AttackMethod :=
  {| id := hybrid; method_name := "Hybrid Attack";
     method_description :=
       "Combines dictionary with mutations. Good balance of speed and coverage.";
     method_baseSpeed := 10; method_successRate := 45 # 100;
     complexityMultiplier := 1 # 2 |}.

Definition ATTACK_METHODS : list AttackMethod :=
  [sequentialAttack; dictionaryAttack; hybridAttack].

Definition calculatePasswordSpace (length charset : Z) (method : AttackMethod)
  : number :=
  let baseSpace := Math_pow charset length in
  Math_ceil (num_mul baseSpace (Fin (complexityMultiplier method))).

Definition calculateEnergyCost (timeInHours : number) (hardware : HardwareKey)
  : number :=
  num_mul timeInHours (Fin (powerCost (HARDWARE_PROFILES hardware))).

(** The [password] state of the component. *)
Record PasswordTarget : Type := {
  target_length : Z;
  charset : Z
}.

(** One element of [graphData]. *)
Record GraphPoint : Type := {
  point_time : Q;
  point_attempts : number;
  energyUsage : number;
  efficiency : number;
  point_progress : number
}.

(** The component's state: the four [useState] cells. *)
Record State : Type := {
  simulation : BruteForceSimulation;
  stats : SimulationStats;
  password : PasswordTarget;
  graphData : list GraphPoint
}.

Definition initialState : State :=
  {| simulation := {| method := sequential; isRunning := false;
                      progress := Fin 0; hardware := cpu_basic |};
     stats := {| attempts := Fin 0; timeElapsed := 0;
                 remainingCombinations := Fin 1000000; successRate := 0;
                 estimatedTimeToComplete := Fin 0; energyCost := Fin 0;
                 passwordsPerWatt := Fin 0 |};
     password := {| target_length := 8; charset := 26 |};
     graphData := [] |}.

(** What the effect computes once and [animate] closes over. *)
Record Closure : Type := {
  startTime : Q;
  attackMethod : AttackMethod;
  totalSpace : number;
  hashingSpeed : number;
  closure_hardware : HardwareKey
}.

(** [newData.slice(-30)]. *)
Definition sliceLast {A} (n : nat) (l : list A) : list A :=
  skipn (List.length l - n) l.

(** The updater passed to [setGraphData]. *)
Definition pushSample (prev : list GraphPoint) (sample : GraphPoint)
  : list GraphPoint :=
  let newData := (prev ++ [sample])%list in
  if (30 <? List.length newData)%nat then sliceLast 30 newData else newData.

Definition handleStart (st : State) : State :=
  {| simulation := {| method := method (simulation st); isRunning := true;
                      progress := progress (simulation st);
                      hardware := hardware (simulation st) |};
     stats := stats st; password := password st; graphData := graphData st |}.

Definition handlePause (st : State) : State :=
  {| simulation := {| method := method (simulation st); isRunning := false;
                      progress := progress (simulation st);
                      hardware := hardware (simulation st) |};
     stats := stats st; password := password st; graphData := graphData st |}.

Definition handleReset (st : State) : State :=
  {| simulation := {| method := method (simulation st); isRunning := false;
                      progress := Fin 0;
                      hardware := hardware (simulation st) |};
     stats := {| attempts := Fin 0; timeElapsed := 0;
                 remainingCombinations :=
                   calculatePasswordSpace (target_length (password st))
                     (charset (password st)) (nth 0 ATTACK_METHODS sequentialAttack);
                 successRate := 0;
                 estimatedTimeToComplete := Fin 0; energyCost := Fin 0;
                 passwordsPerWatt := Fin 0 |};
     password := password st;
     graphData := [] |}.

Section WithLog2.

Variable log2_approx : Q -> Q.

Definition calculateHashingSpeed (baseSpeed_arg : number)
           (hardware : HardwareKey) (passwordLength : Z) : number :=
  let lengthPenalty :=
    Math_max (Fin 1) (Math_log2 log2_approx (of_Z passwordLength)) in
  Math_floor (num_div (of_Z (baseSpeed (HARDWARE_PROFILES hardware)))
                      lengthPenalty).

(** The body of the effect when the simulation is running, entered at
    clock reading [now] (milliseconds). *)
Definition effectSetup (st : State) (now : Z) : option Closure :=
  if isRunning (simulation st) then
    match find (fun m => MethodId_eqb (id m) (method (simulation st)))
               ATTACK_METHODS with
    | Some m =>
        Some {| startTime := inject_Z now - timeElapsed (stats st) * 1000;
                attackMethod := m;
                totalSpace :=
                  calculatePasswordSpace (target_length (password st))
                                         (charset (password st)) m;
                hashingSpeed :=
                  calculateHashingSpeed
                    (of_Z (baseSpeed (HARDWARE_PROFILES (hardware (simulation st)))))
                    (hardware (simulation st))
                    (target_length (password st));
                closure_hardware := hardware (simulation st) |}
    | None => None
    end
  else None.

End WithLog2.

(** One run of [animate], at clock reading [currentTime]: the state
    after its setters, and whether it requested another frame. *)
Definition animate (cl : Closure) (currentTime : Z) (st : State)
  : State * bool :=
  let elapsed := (inject_Z currentTime - startTime cl) / 1000 in
  let elapsedHours := elapsed / 3600 in
  let baseAttempts :=
    Math_floor (num_mul (num_mul (Fin elapsed) (hashingSpeed cl))
                        (Fin (method_baseSpeed (attackMethod cl)))) in
  let attempts_ := Math_min baseAttempts (totalSpace cl) in
  let progress_ := num_mul (num_div attempts_ (totalSpace cl)) (Fin 100) in
  let energyCost_ := calculateEnergyCost (Fin elapsedHours) (closure_hardware cl) in
  let passwordsPerWatt_ := num_div attempts_ (num_mul energyCost_ (Fin 1000)) in
  let sample :=
    {| point_time := elapsed; point_attempts := hashingSpeed cl;
       energyUsage := energyCost_; efficiency := passwordsPerWatt_;
       point_progress := progress_ |} in
  let again := num_ltb progress_ (Fin 100) in
  ({| simulation :=
       {| method := method (simulation st);
          isRunning := if again then isRunning (simulation st) else false;
          progress := Math_min progress_ (Fin 100);
          hardware := hardware (simulation st) |};
     stats :=
       {| attempts := attempts_;
          timeElapsed := elapsed;
          remainingCombinations := num_sub (totalSpace cl) attempts_;
          successRate := method_successRate (attackMethod cl);
          estimatedTimeToComplete :=
            num_div (totalSpace cl)
                    (num_mul (hashingSpeed cl)
                             (Fin (method_baseSpeed (attackMethod cl))));
          energyCost := energyCost_;
          passwordsPerWatt := passwordsPerWatt_ |};
     password := password st;
     graphData := pushSample (graphData st) sample |},
   again).

(** The frames of one run: [animate] at each clock reading in turn,
    until one of them requests no further frame. *)
Fixpoint frames (cl : Closure) (samples : list Z) (st : State) : State :=
  match samples with
  | [] => st
  | t :: rest =>
      let (st', again) := animate cl t st in
      if again then frames cl rest st' else st'
  end.

(** *** Concrete inputs

    A stand-in for the platform's [Math.log2] that is exact on powers
    of two, and the state of a freshly started simulation of a
    four-letter lowercase password. *)

Definition log2OnPowersOfTwo (q : Q) : Q := inject_Z (Z.log2 (Qfloor q)).

Definition fourLetters : State :=
  {| simulation := {| method := sequential; isRunning := true;
                      progress := Fin 0; hardware := cpu_basic |};
     stats := stats initialState;
     password := {| target_length := 4; charset := 26 |};
     graphData := [] |}.

(** The closure the effect builds for [fourLetters] when entered at
    clock reading 0. *)
Definition fourLettersClosure : Closure :=
  {| startTime := 0;
     attackMethod := sequentialAttack;
     totalSpace := of_Z 456976;
     hashingSpeed := of_Z 250000;
     closure_hardware := cpu_basic |}.

(** A paused dictionary run against the same password, and the closure
    of the run started after resetting it. *)
Definition dictionaryRun : State :=
  {| simulation := {| method := dictionary; isRunning := false;
                      progress := Fin 40; hardware := cpu_basic |};
     stats := stats initialState;
     password := {| target_length := 4; charset := 26 |};
     graphData := [] |}.

Definition dictionaryClosure : Closure :=
  {| startTime := 0;
     attackMethod := dictionaryAttack;
     totalSpace := of_Z 45698;
     hashingSpeed := of_Z 250000;
     closure_hardware := cpu_basic |}.

End Simulator.

(* ------------------------------------------------------------------ *)
(** ** BruteForceSimulator: display *)

Module Display.
Import JSNumber.

Local Open Scope Q_scope.

(** [Math.round]: the nearest integer, halves going up. *)
Definition Math_round (a : number) : number :=
  match a with
  | Fin q => of_Z (Qfloor (q + (1 # 2)))
  | _ => a
  end.

(** The text [formatTime] builds, kept as the parts of its template
    literal: the number shown, the digits asked of [toFixed] when it is
    used, and the unit that follows. *)
Record TimeText : Type := {
  shown : number;
  fractionDigits : option nat;
  unit_label : string
}.

Definition formatTime (seconds : number) : TimeText :=
  if num_ltb seconds (Fin 60) then
    {| shown := Math_round seconds; fractionDigits := None;
       unit_label := " seconds" |}
  else if num_ltb seconds (Fin 3600) then
    {| shown := Math_round (num_div seconds (Fin 60)); fractionDigits := None;
       unit_label := " minutes" |}
  else if num_ltb seconds (Fin 86400) then
    {| shown := Math_round (num_div seconds (Fin 3600)); fractionDigits := None;
       unit_label := " hours" |}
  else if num_ltb seconds (Fin 2592000) then
    {| shown := Math_round (num_div seconds (Fin 86400)); fractionDigits := None;
       unit_label := " days" |}
  else if num_ltb seconds (Fin 31536000) then
    {| shown := Math_round (num_div seconds (Fin 2592000));
       fractionDigits := None; unit_label := " months" |}
  else
    let years := num_div seconds (Fin 31536000) in
    if num_ltb years (Fin 100) then
      {| shown := Math_round years; fractionDigits := None;
         unit_label := " years" |}
    else if num_ltb years (Fin 1000) then
      {| shown := Math_round years; fractionDigits := None;
         unit_label := " centuries" |}
    else
      {| shown := num_div years (Fin 1000); fractionDigits := Some 1%nat;
         unit_label := "k years" |}.

End Display.

(* ------------------------------------------------------------------ *)
(** ** PasswordGenerator: the handlers around the generators *)

Module Component.
Import CryptoUtils Generator.

Inductive GenerationMode : Type := random | words.

Record PasswordHistory : Type := {
  entry_password : string;
  timestamp : Z;
  strength : Z;
  entry_type : GenerationMode;
  tags : list string;
  favorite : option bool
}.

Definition MAX_HISTORY : nat := 10.

(** The state the handlers read and write: the [useState] cells of the
    component and of its history list, and the two [localStorage]
    entries ([None] when the key is absent), each holding the value
    that was serialised into it. *)
Record State : Type := {
  password : string;
  passwordHistory : list PasswordHistory;
  bulkPasswords : list string;
  bulkCount : Z;
  options : PasswordOptions;
  generationMode : GenerationMode;
  favorites : list string;
  storedHistory : option (list PasswordHistory);
  storedFavorites : option (list string)
}.

Definition TAG_COLORS : list string :=
  ["bg-blue-100 text-blue-800 dark:bg-blue-900 dark:text-blue-300";
   "bg-green-100 text-green-800 dark:bg-green-900 dark:text-green-300";
   "bg-red-100 text-red-800 dark:bg-red-900 dark:text-red-300";
   "bg-yellow-100 text-yellow-800 dark:bg-yellow-900 dark:text-yellow-300";
   "bg-purple-100 text-purple-800 dark:bg-purple-900 dark:text-purple-300";
   "bg-pink-100 text-pink-800 dark:bg-pink-900 dark:text-pink-300";
   "bg-indigo-100 text-indigo-800 dark:bg-indigo-900 dark:text-indigo-300"].

(** [getTagColor]: the character codes of the tag summed up, reduced
    modulo the number of colours; an index outside the array would
    read [undefined] ([None]). *)
Definition getTagColor (tag : string) : option string :=
  let hash :=
    fold_left (fun acc char => Z.of_nat (nat_of_ascii char) + acc)
              (list_ascii_of_string tag) 0 in
  let index := Z.rem hash (Z.of_nat (List.length TAG_COLORS)) in
  if index <? 0 then None else nth_error TAG_COLORS (Z.to_nat index).

(** [array.slice(0, n)]. *)
Definition sliceFirst {A} (n : nat) (l : list A) : list A := firstn n l.

(** The argument of [setBulkCount]:
    [Math.min(100, Math.max(10, parseInt(text) || 10))], where
    [parseInt] yields an integer or [NaN] ([None]). *)
Definition clampBulkCount (parsed : option Z) : Z :=
  let value :=
    match parsed with
    | Some z => if z =? 0 then 10 else z
    | None => 10
    end in
  Z.min 100 (Z.max 10 value).

Definition handleClearHistory (st : State) : State :=
  {| password := password st; passwordHistory := [];
     bulkPasswords := bulkPasswords st; bulkCount := bulkCount st;
     options := options st; generationMode := generationMode st;
     favorites := favorites st;
     storedHistory := None; storedFavorites := storedFavorites st |}.

(** [handleRemoveTag] of the history list.  The updater rewrites the
    entries of the given password; [savePasswordHistory(history)] is
    handed the list the component was rendered with. *)
Definition handleRemoveTag (target tagToRemove : string) (st : State) : State :=
  {| password := password st;
     passwordHistory :=
       map (fun entry =>
              if String.eqb (entry_password entry) target
              then {| entry_password := entry_password entry;
                      timestamp := timestamp entry;
                      strength := strength entry;
                      entry_type := entry_type entry;
                      tags := filter (fun tag => negb (String.eqb tag tagToRemove))
                                     (tags entry);
                      favorite := favorite entry |}
              else entry)
           (passwordHistory st);
     bulkPasswords := bulkPasswords st; bulkCount := bulkCount st;
     options := options st; generationMode := generationMode st;
     favorites := favorites st;
     storedHistory := Some (passwordHistory st);
     storedFavorites := storedFavorites st |}.

(** [toggleFavorite]: the set of favourites, in insertion order. *)
Definition toggleFavorite (target : string) (st : State) : State :=
  let newFavorites :=
    if existsb (String.eqb target) (favorites st)
    then filter (fun p => negb (String.eqb p target)) (favorites st)
    else (favorites st ++ [target])%list in
  {| password := password st; passwordHistory := passwordHistory st;
     bulkPasswords := bulkPasswords st; bulkCount := bulkCount st;
     options := options st; generationMode := generationMode st;
     favorites := newFavorites;
     storedHistory := storedHistory st;
     storedFavorites := Some newFavorites |}.

Section WithEnvironment.

Variables LOWERCASE_CHARS UPPERCASE_CHARS NUMBER_CHARS SYMBOL_CHARS
          AMBIGUOUS_CHARS : string.

(** The score the strength oracle gives a password. *)
Variable zxcvbn_score : string -> Z.

(** The generator call both handlers make. *)
Definition generateOne (st : State) : Gen string :=
  match generationMode st with
  | random =>
      generatePassword LOWERCASE_CHARS UPPERCASE_CHARS NUMBER_CHARS
                       SYMBOL_CHARS AMBIGUOUS_CHARS (options st)
  | words =>
      generateWordBasedPassword
        {| length := length (options st);
           includeLowercase := includeLowercase (options st);
           includeUppercase := includeUppercase (options st);
           includeNumbers := includeNumbers (options st);
           includeSymbols := includeSymbols (options st);
           excludeAmbiguous := excludeAmbiguous (options st);
           wordCount := wordCount (options st);
           wordSeparator := wordSeparator (options st);
           wordLanguage := wordLanguage (options st) |}
  end.

(** [handleGeneratePassword], run at clock reading [now]. *)
Definition handleGeneratePassword (now : Z) (st : State) : Gen State :=
  (newPassword <- generateOne st ;;
   let newHistory :=
     sliceFirst MAX_HISTORY
       ({| entry_password := newPassword;
           timestamp := now;
           strength := zxcvbn_score newPassword;
           entry_type := generationMode st;
           tags := [];
           favorite := None |} :: passwordHistory st) in
   ret {| password := newPassword; passwordHistory := newHistory;
          bulkPasswords := bulkPasswords st; bulkCount := bulkCount st;
          options := options st; generationMode := generationMode st;
          favorites := favorites st;
          storedHistory := Some newHistory;
          storedFavorites := storedFavorites st |})%gen.

Definition handleGenerateBulkPasswords (st : State) : Gen State :=
  (passwords <- arrayFrom (Z.to_nat (bulkCount st)) (generateOne st) ;;
   ret {| password := password st; passwordHistory := passwordHistory st;
          bulkPasswords := passwords; bulkCount := bulkCount st;
          options := options st; generationMode := generationMode st;
          favorites := favorites st;
          storedHistory := storedHistory st;
          storedFavorites := storedFavorites st |})%gen.

End WithEnvironment.

(** *** Concrete inputs *)

Definition freshState : State :=
  {| password := ""; passwordHistory := []; bulkPasswords := [];
     bulkCount := 10; options := defaultOptions; generationMode := random;
     favorites := [];
     storedHistory := None; storedFavorites := None |}.

Definition noWords (numbers : bool) : PasswordOptions :=
  {| length := 16;
     includeLowercase := true; includeUppercase := true;
     includeNumbers := numbers; includeSymbols := true;
     excludeAmbiguous := false;
     wordCount := 0; wordSeparator := "-"; wordLanguage := es |}.

Definition wordsState : State :=
  {| password := ""; passwordHistory := []; bulkPasswords := [];
     bulkCount := 10; options := defaultOptions; generationMode := words;
     favorites := [];
     storedHistory := None; storedFavorites := None |}.

Definition taggedEntry : PasswordHistory :=
  {| entry_password := "Star-Rock-Blue"; timestamp := 1700000000000;
     strength := 3; entry_type := words; tags := ["work"; "phrase"];
     favorite := None |}.

Definition taggedState : State :=
  {| password := "Star-Rock-Blue"; passwordHistory := [taggedEntry];
     bulkPasswords := []; bulkCount := 10; options := defaultOptions;
     generationMode := random; favorites := [];
     storedHistory := Some [taggedEntry]; storedFavorites := None |}.

Definition lengthAsScore (pwd : string) : Z :=
  Z.min 4 (Z.of_nat (String.length pwd) / 4).

End Component.

(* ================================================================== *)
(** * Properties of the generators *)

Module GeneratorFacts.
Import CryptoUtils Generator.

Local Open Scope string_scope.
Local Open Scope Z_scope.

Lemma length_append (s t : string) :
  String.length (s ++ t) = (String.length s + String.length t)%nat.
Proof.
  induction s as [|c s IH]; simpl; [reflexivity | now rewrite IH].
Qed.

Lemma list_ascii_of_string_append (s t : string) :
  list_ascii_of_string (s ++ t) =
  (list_ascii_of_string s ++ list_ascii_of_string t)%list.
Proof.
  induction s as [|c s IH]; simpl; [reflexivity | now rewrite IH].
Qed.

Lemma append_assoc (s t u : string) : (s ++ t) ++ u = s ++ (t ++ u).
Proof.
  induction s as [|c s IH]; simpl; [reflexivity | now rewrite IH].
Qed.

Lemma append_empty_r (s : string) : s ++ "" = s.
Proof.
  induction s as [|c s IH]; simpl; [reflexivity | now rewrite IH].
Qed.

Lemma get_in_range (s : string) (k : nat) :
  (k < String.length s)%nat ->
  exists c, String.get k s = Some c /\ In c (list_ascii_of_string s).
Proof.
  revert k; induction s as [|a s IH]; simpl; intros k Hk; [lia|].
  destruct k as [|k].
  - exists a; auto.
  - destruct (IH k) as (c & Hc & Hin); [lia|].
    exists c; auto.
Qed.

(** Indexing the alphabet by a remainder modulo its length always finds
    a character of the alphabet. *)
Lemma charAtIndex_mod (chars : string) (v : Z) :
  chars <> "" ->
  exists c, charAtIndex chars (v mod Z.of_nat (String.length chars))
            = Some (String c "")
            /\ In c (list_ascii_of_string chars).
Proof.
  intros Hne.
  assert (Hlen : (0 < String.length chars)%nat)
    by (destruct chars; [congruence | simpl; lia]).
  pose proof (Z.mod_pos_bound v (Z.of_nat (String.length chars)) ltac:(lia)) as Hb.
  unfold charAtIndex.
  destruct (Z.ltb_spec (v mod Z.of_nat (String.length chars)) 0) as [Hlt|_]; [lia|].
  destruct (get_in_range chars (Z.to_nat (v mod Z.of_nat (String.length chars))))
    as (c & Hc & Hin); [lia|].
  rewrite Hc; eauto.
Qed.

(** A request within the quota is served from the source, in order. *)
Lemma getRandomValues_within_quota (n : nat) (rng : entropy) :
  Z.of_nat n <= 16384 ->
  getRandomValues n rng
  = Returned (map (fun i => uint32 (rng i)) (seq 0 n),
              fun i => rng (i + n)%nat).
Proof.
  intros Hn; unfold getRandomValues, QUOTA_BYTES.
  destruct (Z.ltb_spec 65536 (4 * Z.of_nat n)) as [?|_]; [lia | reflexivity].
Qed.

Lemma getRandomValues_over_quota (n : nat) (rng : entropy) :
  16384 < Z.of_nat n ->
  getRandomValues n rng = Thrown QuotaExceededError.
Proof.
  intros Hn; unfold getRandomValues, QUOTA_BYTES.
  destruct (Z.ltb_spec 65536 (4 * Z.of_nat n)) as [_|?]; [reflexivity | lia].
Qed.

Lemma getRandomValues_length (n : nat) (rng : entropy) :
  Z.of_nat n <= 16384 ->
  exists vals rng', getRandomValues n rng = Returned (vals, rng')
                    /\ List.length vals = n.
Proof.
  intros Hn; rewrite getRandomValues_within_quota by assumption.
  eexists; eexists; split; [reflexivity|].
  now rewrite length_map, length_seq.
Qed.

(** The loop appends exactly one alphabet character per iteration as
    long as the random buffer covers the indices it reads. *)
Lemma fillPassword_spec (chars : string) (vals : list Z) :
  chars <> "" ->
  forall n i password,
    (i + n <= List.length vals)%nat ->
    exists s,
      fillPassword chars vals i n password = password ++ s
      /\ String.length s = n
      /\ forall c, In c (list_ascii_of_string s) ->
                   In c (list_ascii_of_string chars).
Proof.
  intros Hne; induction n as [|n IH]; intros i password Hi; simpl.
  - exists ""; rewrite append_empty_r; simpl; tauto.
  - destruct (nth_error vals i) as [v|] eqn:Hv.
    2:{ apply nth_error_None in Hv; lia. }
    destruct (charAtIndex_mod chars v Hne) as (c & Hc & Hin).
    rewrite Hc.
    destruct (IH (S i) (appendValue password (Some (String c ""))))
      as (s & Hs & Hl & Hall); [lia|].
    exists (String c s); split; [|split].
    + rewrite Hs; unfold appendValue; now rewrite append_assoc.
    + simpl; now rewrite Hl.
    + simpl; intros c' [<-|Hc']; auto.
Qed.

Section WithCharacterSets.

Variables LOWERCASE_CHARS UPPERCASE_CHARS NUMBER_CHARS SYMBOL_CHARS
          AMBIGUOUS_CHARS : string.

Local Abbreviation assembled :=
  (assembleChars LOWERCASE_CHARS UPPERCASE_CHARS NUMBER_CHARS SYMBOL_CHARS
                 AMBIGUOUS_CHARS).
Local Abbreviation generate :=
  (generatePassword LOWERCASE_CHARS UPPERCASE_CHARS NUMBER_CHARS SYMBOL_CHARS
                    AMBIGUOUS_CHARS).

Local Abbreviation inAlphabet :=
  (Generator.inAlphabet LOWERCASE_CHARS UPPERCASE_CHARS NUMBER_CHARS
                        SYMBOL_CHARS AMBIGUOUS_CHARS).

Lemma includes_occurs (set : string) (c : ascii) :
  includes set c = true <-> occurs c set.
Proof.
  unfold includes, occurs; rewrite existsb_exists; split.
  - intros (x & Hin & Heq); apply Ascii.eqb_eq in Heq; now subst.
  - intros Hin; exists c; split; [assumption | apply Ascii.eqb_refl].
Qed.

Lemma assembled_inAlphabet (options : PasswordOptions) (c : ascii) :
  occurs c (assembled options) <-> inAlphabet options c.
Proof.
  unfold assembleChars, inAlphabet, occurs, filterChars.
  destruct options as [len lo up nu sy amb wc ws wl]; simpl.
  destruct amb.
  - rewrite list_ascii_of_string_of_list_ascii, filter_In, negb_true_iff.
    rewrite <- not_true_iff_false, includes_occurs; unfold occurs.
    destruct lo, up, nu, sy; simpl;
      rewrite ?list_ascii_of_string_append, ?in_app_iff; simpl; intuition congruence.
  - destruct lo, up, nu, sy; simpl;
      rewrite ?list_ascii_of_string_append, ?in_app_iff; simpl; intuition congruence.
Qed.

(** C1, as the code has it. Whenever the assembled character set is
    non-empty and the requested length lies between 0 and 16384 (the
    most 32-bit values one [crypto.getRandomValues] call fills),
    [generatePassword] returns a password whose length is
    [options.length] and whose every character belongs to the alphabet
    assembled from the enabled classes, ambiguous characters removed
    when [excludeAmbiguous] is set. *)
Theorem generatePassword_length_and_alphabet
        (options : PasswordOptions) (rng : entropy) :
  assembled options <> "" ->
  0 <= length options <= 16384 ->
  exists password rng',
    generate options rng = Returned (password, rng')
    /\ Z.of_nat (String.length password) = length options
    /\ (forall c, occurs c password -> occurs c (assembled options))
    /\ (forall c, occurs c password -> inAlphabet options c).
Proof.
  intros Hne Hlen.
  unfold generatePassword.
  destruct (Nat.eqb_spec (String.length (assembled options)) 0) as [H0|_].
  { destruct (assembled options); [congruence | discriminate]. }
  unfold bind, getRandomNumbers.
  destruct (Z.ltb_spec (length options) 0) as [?|_]; [lia|].
  destruct (getRandomValues_length (Z.to_nat (length options)) rng)
    as (vals & rng' & -> & Hvals); [lia|].
  destruct (fillPassword_spec (assembled options) vals Hne
              (Z.to_nat (length options)) 0%nat "")
    as (s & Hs & Hl & Hall); [lia|].
  exists s, rng'; unfold ret; rewrite Hs; simpl.
  split; [reflexivity|].
  split; [lia|].
  split; [exact Hall|].
  intros c Hc; apply assembled_inAlphabet, Hall, Hc.
Qed.

(** C2. With the four class flags all false the alphabet is empty and
    the call throws the empty-alphabet error, whatever the length, the
    other settings and the entropy. *)
Theorem generatePassword_no_class_throws
        (options : PasswordOptions) (rng : entropy) :
  includeLowercase options = false ->
  includeUppercase options = false ->
  includeNumbers options = false ->
  includeSymbols options = false ->
  generate options rng
  = Thrown (Error "At least one character set must be selected").
Proof.
  intros Hl Hu Hn Hs.
  unfold generatePassword, assembleChars.
  rewrite Hl, Hu, Hn, Hs.
  destruct (excludeAmbiguous options); reflexivity.
Qed.

(** C9, as the code has it. The only configuration check is the one on
    the alphabet: a negative length makes the call throw (the
    empty-alphabet error, or the [RangeError] of the buffer
    allocation), while length zero with a non-empty alphabet returns
    the empty password. *)
Theorem generatePassword_nonpositive_length
        (options : PasswordOptions) (rng : entropy) :
  (length options < 0 ->
   generate options rng
   = Thrown (if (String.length (assembled options) =? 0)%nat
             then Error "At least one character set must be selected"
             else RangeError))
  /\ (length options = 0 -> assembled options <> "" ->
      exists rng', generate options rng = Returned ("", rng')).
Proof.
  split.
  - intros Hneg; unfold generatePassword.
    destruct (String.length (assembled options) =? 0)%nat; [reflexivity|].
    unfold bind, getRandomNumbers.
    destruct (Z.ltb_spec (length options) 0) as [_|?]; [reflexivity | lia].
  - intros H0 Hne; unfold generatePassword.
    destruct (Nat.eqb_spec (String.length (assembled options)) 0) as [He|_].
    { destruct (assembled options); [congruence | discriminate]. }
    rewrite H0; simpl; eexists; reflexivity.
Qed.

End WithCharacterSets.

Local Abbreviation generateSample :=
  (generatePassword lowercaseLetters uppercaseLetters digits symbols ambiguous).
Local Abbreviation assembledSample :=
  (assembleChars lowercaseLetters uppercaseLetters digits symbols ambiguous).

(** *** The definitions at concrete inputs *)

Example generatePassword_defaults :
  exists rng',
    generateSample defaultOptions sampleEntropy
    = Returned ("$:7[f(?#;k=ev>p|", rng').
Proof. eexists; reflexivity. Qed.

Example generatePassword_negative_length :
  generateSample (lowercaseOnly (-1)) sampleEntropy = Thrown RangeError.
Proof. reflexivity. Qed.

Example joinWords_english :
  exists rng',
    joinWords (Some ENGLISH_WORDS) defaultOptions sampleEntropy
    = Returned ("Star-Rock-Blue-Dragon-717", rng').
Proof. eexists; reflexivity. Qed.

Example joinWords_spanish_no_number :
  exists rng',
    joinWords (Some SPANISH_WORDS) (lowercaseOnly 3) sampleEntropy
    = Returned ("Aire-Alma-Amigo-Amor", rng').
Proof. eexists; reflexivity. Qed.

(** A request of 16385 characters, one value past the quota, throws
    although the alphabet is not empty. *)
Lemma generatePassword_over_quota_throws :
  assembledSample (lowercaseOnly 16385) <> ""
  /\ generateSample (lowercaseOnly 16385) sampleEntropy
     = Thrown QuotaExceededError.
Proof.
  split; [vm_compute; discriminate | vm_compute; reflexivity].
Defined.

Lemma generatePassword_length_and_alphabet_witness :
  assembledSample defaultOptions <> ""
  /\ 0 <= length defaultOptions <= 16384
  /\ exists password rng',
       generateSample defaultOptions sampleEntropy = Returned (password, rng')
       /\ Z.of_nat (String.length password) = length defaultOptions
       /\ (forall c, occurs c password ->
                     occurs c (assembledSample defaultOptions))
       /\ (forall c, occurs c password ->
                     inAlphabet lowercaseLetters uppercaseLetters digits
                                symbols ambiguous defaultOptions c).
Proof.
  assert (H1 : assembledSample defaultOptions <> "") by (vm_compute; discriminate).
  assert (H2 : 0 <= length defaultOptions <= 16384)
    by (vm_compute; split; discriminate).
  split; [exact H1 | split; [exact H2 |]].
  exact (generatePassword_length_and_alphabet
           lowercaseLetters uppercaseLetters digits symbols ambiguous
           defaultOptions sampleEntropy H1 H2).
Defined.

Lemma generatePassword_no_class_throws_witness :
  generateSample (noClass 12) sampleEntropy
  = Thrown (Error "At least one character set must be selected").
Proof.
  apply (generatePassword_no_class_throws
           lowercaseLetters uppercaseLetters digits symbols ambiguous
           (noClass 12) sampleEntropy); reflexivity.
Defined.

(** Length zero with the lowercase class enabled returns the empty
    password instead of throwing. *)
Lemma generatePassword_zero_length_returns :
  length (lowercaseOnly 0) <= 0
  /\ exists rng',
       generateSample (lowercaseOnly 0) sampleEntropy = Returned ("", rng').
Proof.
  split; [vm_compute; discriminate | eexists; reflexivity].
Defined.

Lemma generatePassword_nonpositive_length_witness :
  (length (lowercaseOnly (-3)) < 0
   /\ generateSample (lowercaseOnly (-3)) sampleEntropy = Thrown RangeError)
  /\ (length (lowercaseOnly 0) = 0
      /\ assembledSample (lowercaseOnly 0) <> ""
      /\ exists rng',
           generateSample (lowercaseOnly 0) sampleEntropy = Returned ("", rng')).
Proof.
  assert (Hneg : length (lowercaseOnly (-3)) < 0) by reflexivity.
  assert (Hz : length (lowercaseOnly 0) = 0) by reflexivity.
  assert (Hne : assembledSample (lowercaseOnly 0) <> "")
    by (vm_compute; discriminate).
  split.
  - split; [exact Hneg |].
    exact (proj1 (generatePassword_nonpositive_length
                    lowercaseLetters uppercaseLetters digits symbols ambiguous
                    (lowercaseOnly (-3)) sampleEntropy) Hneg).
  - split; [exact Hz | split; [exact Hne |]].
    exact (proj2 (generatePassword_nonpositive_length
                    lowercaseLetters uppercaseLetters digits symbols ambiguous
                    (lowercaseOnly 0) sampleEntropy) Hz Hne).
Defined.

(** *** Word-based generation *)

Lemma arrayFrom_throws {A} (f : Gen A) (x : exn) (n : nat) (rng : entropy) :
  f rng = Thrown x -> (0 < n)%nat -> arrayFrom n f rng = Thrown x.
Proof.
  intros Hf Hn; destruct n as [|n]; [lia|].
  simpl; unfold bind; now rewrite Hf.
Qed.

(** C3, on the code. [generateWordBasedPassword] looks its word list up
    under [options.language], a property [PasswordOptions] does not
    have (the language is in [wordLanguage]); the list is [undefined]
    and the first draw throws a [TypeError], so no passphrase is
    returned as soon as one word is asked for. *)
Theorem generateWordBasedPassword_throws
        (options : PasswordOptions) (rng : entropy) :
  0 < wordCount options ->
  generateWordBasedPassword options rng = Thrown TypeError.
Proof.
  intros Hn.
  unfold generateWordBasedPassword, options_language, joinWords; simpl.
  unfold bind at 1.
  rewrite (arrayFrom_throws (drawWord None) TypeError); [reflexivity | reflexivity | lia].
Qed.

Lemma generateWordBasedPassword_throws_witness :
  0 < wordCount defaultOptions
  /\ generateWordBasedPassword defaultOptions sampleEntropy = Thrown TypeError.
Proof.
  assert (H : 0 < wordCount defaultOptions) by reflexivity.
  split; [exact H |].
  exact (generateWordBasedPassword_throws defaultOptions sampleEntropy H).
Defined.

(** What the rest of the function does with a word list that was
    found: the slip above is the only obstacle to the passphrase the
    interface promises. *)

Lemma getRandomNumber_range (max : Z) (rng : entropy) :
  0 < max ->
  exists k rng', getRandomNumber max rng = Returned (Some k, rng')
                 /\ 0 <= k < max.
Proof.
  intros Hmax; unfold getRandomNumber, bind.
  rewrite getRandomValues_within_quota by (simpl; lia).
  unfold ret; simpl.
  destruct (Z.eqb_spec max 0) as [?|_]; [lia|].
  eexists; eexists; split; [reflexivity|].
  apply Z.mod_pos_bound; assumption.
Qed.

Lemma drawWord_found (l : list string) (rng : entropy) :
  l <> [] ->
  exists w rng',
    drawWord (Some l) rng = Returned (capitalizeFirstLetter w, rng')
    /\ In w l.
Proof.
  intros Hne.
  assert (Hlen : 0 < Z.of_nat (List.length l))
    by (destruct l; [congruence | simpl; lia]).
  destruct (getRandomNumber_range _ rng Hlen) as (k & rng' & Hk & Hr).
  unfold drawWord, bind; rewrite Hk.
  destruct (nth_error l (Z.to_nat k)) as [w|] eqn:Hw.
  - exists w, rng'; split; [reflexivity | eapply nth_error_In; eassumption].
  - apply nth_error_None in Hw; lia.
Qed.

Lemma arrayFrom_drawWord (l : list string) (n : nat) :
  l <> [] ->
  forall rng,
  exists ws rng',
    arrayFrom n (drawWord (Some l)) rng
    = Returned (map capitalizeFirstLetter ws, rng')
    /\ List.length ws = n
    /\ Forall (fun w => In w l) ws.
Proof.
  intros Hne; induction n as [|n IH]; intros rng; cbn [arrayFrom].
  - exists [], rng; repeat constructor.
  - destruct (drawWord_found l rng Hne) as (w & rng1 & Hw & Hin).
    destruct (IH rng1) as (ws & rng2 & Hws & Hl & Hall).
    exists (w :: ws), rng2; unfold bind; rewrite Hw, Hws; simpl.
    split; [reflexivity | split; [now rewrite Hl | now constructor]].
Qed.

Lemma joinWords_tokens (l : list string) (options : PasswordOptions)
      (rng : entropy) :
  l <> [] ->
  exists ws suffix rng',
    joinWords (Some l) options rng
    = Returned (String.concat (wordSeparator options)
                  (map capitalizeFirstLetter ws ++ suffix)%list, rng')
    /\ List.length ws = Z.to_nat (wordCount options)
    /\ Forall (fun w => In w l) ws
    /\ if includeNumbers options
       then exists n, 100 <= n <= 999
                      /\ suffix = [NilZero.string_of_int (Z.to_int n)]
       else suffix = [].
Proof.
  intros Hne.
  destruct (arrayFrom_drawWord l (Z.to_nat (wordCount options)) Hne rng)
    as (ws & rng1 & Hws & Hl & Hall).
  unfold joinWords, bind at 1; rewrite Hws.
  destruct (includeNumbers options).
  - destruct (getRandomNumber_range 900 rng1 ltac:(lia)) as (k & rng2 & Hk & Hr).
    exists ws, [NilZero.string_of_int (Z.to_int (100 + k))], rng2.
    unfold bind; rewrite Hk; simpl.
    repeat (split; [first [reflexivity | assumption]|]).
    exists (100 + k); split; [lia | reflexivity].
  - exists ws, [], rng1; unfold bind, ret; rewrite app_nil_r.
    repeat (split; [first [reflexivity | assumption]|]); reflexivity.
Qed.

End GeneratorFacts.

(* ================================================================== *)
(** * Properties of the simulator *)

Module SimulatorFacts.
Import JSNumber Simulator.

Local Open Scope Q_scope.

(** *** Arithmetic *)

Lemma Qcompare_inject_Z_0 (z : Z) : (inject_Z z ?= 0) = (z ?= 0)%Z.
Proof. unfold Qcompare; simpl; now rewrite Z.mul_1_r. Qed.

Lemma Qeq_bool_false (x : Q) : ~ x == 0 -> Qeq_bool x 0 = false.
Proof.
  intros H; destruct (Qeq_bool x 0) eqn:E; [|reflexivity].
  apply Qeq_bool_eq in E; contradiction.
Qed.


Lemma ratio_le_100 (a T : Q) : 0 < T -> a <= T -> a / T * 100 <= 100.
Proof.
  intros HT H.
  assert (E : a / T <= 1) by (apply Qle_shift_div_r; lra).
  lra.
Qed.

Lemma Math_min_fin (x y : Q) :
  exists m, Math_min (Fin x) (Fin y) = Fin m
            /\ m <= x /\ m <= y /\ (m = x \/ m = y).
Proof.
  simpl; destruct (Qle_bool x y) eqn:E.
  - apply Qle_bool_imp_le in E; exists x; repeat split; auto; lra.
  - exists y; repeat split; auto; try lra.
    destruct (Qlt_le_dec y x) as [H|H]; [lra|].
    apply Qle_bool_iff in H; congruence.
Qed.

(** *** The configuration-derived quantities *)

Section WithLog2.

Variable log2_approx : Q -> Q.

Local Abbreviation hashing := (calculateHashingSpeed log2_approx).
Local Abbreviation setup := (effectSetup log2_approx).

(** The length penalty of a non-negative length is a finite number,
    at least one. *)
Lemma lengthPenalty_fin (len : Z) :
  (0 <= len)%Z ->
  exists p, Math_max (Fin 1) (Math_log2 log2_approx (of_Z len)) = Fin p
            /\ 1 <= p.
Proof.
  intros Hlen; unfold Math_log2, of_Z.
  rewrite Qcompare_inject_Z_0.
  destruct (Z.compare_spec len 0) as [?|?|?]; [| lia |].
  - exists 1; split; [reflexivity | lra].
  - simpl; destruct (Qle_bool 1 (log2_approx (inject_Z len))) eqn:E.
    + apply Qle_bool_imp_le in E; eauto.
    + exists 1; split; [reflexivity | lra].
Qed.

Lemma hashingSpeed_fin (b : number) (hw : HardwareKey) (len : Z) :
  (0 <= len)%Z ->
  exists h, hashing b hw len = of_Z h /\ (0 <= h)%Z.
Proof.
  intros Hlen; unfold calculateHashingSpeed.
  destruct (lengthPenalty_fin len Hlen) as (p & -> & Hp).
  unfold num_div, of_Z; rewrite Qeq_bool_false by lra.
  eexists; split; [reflexivity|].
  rewrite <- (Qfloor_Z 0); apply Qfloor_resp_le.
  apply Qle_shift_div_l; [lra|].
  assert (0 <= inject_Z (baseSpeed (HARDWARE_PROFILES hw))).
  { change 0 with (inject_Z 0); rewrite <- Zle_Qle; destruct hw; simpl; lia. }
  change (inject_Z 0) with 0; lra.
Qed.

Lemma passwordSpace_sequential (len cs : Z) :
  (0 <= len)%Z ->
  calculatePasswordSpace len cs sequentialAttack = of_Z (cs ^ len).
Proof.
  intros Hlen; unfold calculatePasswordSpace, Math_pow.
  destruct (Z.leb_spec 0 len) as [_|?]; [|lia].
  unfold of_Z; simpl num_mul; unfold Math_ceil, of_Z; f_equal; f_equal.
  rewrite <- (Qceiling_Z (cs ^ len)) at 2.
  apply Qceiling_comp; simpl; ring.
Qed.

Lemma passwordSpace_fin (len cs : Z) (m : AttackMethod) :
  (1 <= cs)%Z -> (0 <= len)%Z -> In m ATTACK_METHODS ->
  exists T, calculatePasswordSpace len cs m = of_Z T /\ (1 <= T)%Z.
Proof.
  intros Hcs Hlen Hm; unfold calculatePasswordSpace, Math_pow.
  destruct (Z.leb_spec 0 len) as [_|?]; [|lia].
  unfold of_Z; simpl num_mul; unfold Math_ceil, of_Z.
  eexists; split; [reflexivity|].
  assert (Hpow : (1 <= cs ^ len)%Z).
  { change 1%Z with (Z.succ 0); apply Z.le_succ_l, Z.pow_pos_nonneg; lia. }
  assert (HQ : 1 <= inject_Z (cs ^ len))
    by (change 1 with (inject_Z 1); now rewrite <- Zle_Qle).
  assert (Hmul : 0 < complexityMultiplier m).
  { simpl in Hm; destruct Hm as [H|[H|[H|[]]]]; rewrite <- H; reflexivity. }
  assert (Hprod : 0 < inject_Z (cs ^ len) * complexityMultiplier m)
    by (apply Qmult_lt_0_compat; lra).
  pose proof (Qle_ceiling (inject_Z (cs ^ len) * complexityMultiplier m)) as Hc.
  assert (Hlt : inject_Z 0 < inject_Z (Qceiling (inject_Z (cs ^ len) * complexityMultiplier m)))
    by (change (inject_Z 0) with 0; lra).
  rewrite <- Zlt_Qlt in Hlt; lia.
Qed.

(** What the closure built by the effect holds. *)
Lemma effectSetup_inv (st : State) (now : Z) (cl : Closure) :
  setup st now = Some cl ->
  isRunning (simulation st) = true
  /\ In (attackMethod cl) ATTACK_METHODS
  /\ id (attackMethod cl) = method (simulation st)
  /\ startTime cl = inject_Z now - timeElapsed (stats st) * 1000
  /\ totalSpace cl
     = calculatePasswordSpace (target_length (password st))
                              (charset (password st)) (attackMethod cl)
  /\ hashingSpeed cl
     = hashing (of_Z (baseSpeed (HARDWARE_PROFILES (hardware (simulation st)))))
               (hardware (simulation st)) (target_length (password st))
  /\ closure_hardware cl = hardware (simulation st).
Proof.
  unfold effectSetup.
  destruct (isRunning (simulation st)); [|discriminate].
  destruct (method (simulation st)); simpl; intros [= <-]; simpl; tauto.
Qed.

(** The effect always finds its attack method: a running simulation
    has a closure. *)
Lemma effectSetup_running (st : State) (now : Z) :
  isRunning (simulation st) = true -> exists cl, setup st now = Some cl.
Proof.
  intros H; unfold effectSetup; rewrite H.
  destruct (method (simulation st)); simpl; eauto.
Qed.

Lemma sequential_closure (st : State) (now : Z) (cl : Closure) :
  setup st now = Some cl ->
  method (simulation st) = sequential ->
  attackMethod cl = sequentialAttack.
Proof.
  intros Hs Hm; destruct (effectSetup_inv st now cl Hs) as (_ & Hin & Hid & _).
  rewrite Hm in Hid; simpl in Hin.
  destruct Hin as [H|[H|[H|[]]]]; rewrite <- H in Hid |- *;
    [reflexivity | | ]; simpl in Hid; discriminate.
Qed.

(** C10. [calculateHashingSpeed] does not look at its [baseSpeed]
    argument: whatever is passed there the result is the same, namely
    the floor of the hardware profile's base speed over
    [max(1, log2(passwordLength))].  For a positive length that is the
    whole number [h] with [h <= baseSpeed / p < h + 1], where the
    penalty [p] is [log2(passwordLength)] when that is at least 1 and
    1 otherwise; for length 0 the logarithm is [-Infinity], the penalty
    1 and the result the base speed; for a negative length it is
    [NaN]. *)
Theorem calculateHashingSpeed_ignores_baseSpeed
        (b1 b2 : number) (hw : HardwareKey) (len : Z) :
  hashing b1 hw len = hashing b2 hw len
  /\ ((0 < len)%Z ->
      exists p h,
        (1 <= log2_approx (inject_Z len) -> p = log2_approx (inject_Z len))
        /\ (log2_approx (inject_Z len) < 1 -> p = 1)
        /\ hashing b1 hw len = of_Z h
        /\ inject_Z h <= inject_Z (baseSpeed (HARDWARE_PROFILES hw)) / p
        /\ inject_Z (baseSpeed (HARDWARE_PROFILES hw)) / p < inject_Z h + 1)
  /\ (len = 0%Z ->
      hashing b1 hw len = of_Z (baseSpeed (HARDWARE_PROFILES hw)))
  /\ ((len < 0)%Z -> hashing b1 hw len = NaN).
Proof.
  split; [reflexivity|].
  unfold calculateHashingSpeed, Math_log2, of_Z.
  rewrite Qcompare_inject_Z_0.
  split; [|split].
  - intros Hlen.
    destruct (Z.compare_spec len 0) as [?|?|_]; [lia | lia |].
    set (l := log2_approx (inject_Z len)).
    set (base := inject_Z (baseSpeed (HARDWARE_PROFILES hw))).
    unfold Math_max.
    destruct (Qle_bool 1 l) eqn:E.
    + apply Qle_bool_imp_le in E.
      exists l, (Qfloor (base / l)).
      split; [reflexivity|].
      split; [intros Hl; lra|].
      unfold num_div; rewrite Qeq_bool_false by lra.
      split; [reflexivity|].
      split; [apply Qfloor_le|].
      rewrite <- (inject_Z_plus _ 1); apply Qlt_floor.
    + apply not_true_iff_false in E; rewrite Qle_bool_iff in E.
      exists 1, (Qfloor (base / 1)).
      split; [intros Hl; contradiction|].
      split; [reflexivity|].
      split; [reflexivity|].
      split; [apply Qfloor_le|].
      rewrite <- (inject_Z_plus _ 1); apply Qlt_floor.
  - intros ->; change (0 ?= 0)%Z with Eq; cbv iota.
    unfold Math_max, num_div; rewrite Qeq_bool_false by lra.
    unfold Math_floor, of_Z; do 2 f_equal.
    rewrite <- (Qfloor_Z (baseSpeed (HARDWARE_PROFILES hw))) at 2.
    apply Qfloor_comp; field.
  - intros Hlen.
    destruct (Z.compare_spec len 0) as [?|_|?]; [lia | reflexivity | lia].
Qed.

(** With [log2(4) = 2] the cpu_basic profile hashes 250000 four-letter
    candidates a second. *)
Lemma hashing_cpu_basic_4 (b : number) :
  log2_approx 4 == 2 -> hashing b cpu_basic 4 = of_Z 250000.
Proof.
  intros H; unfold calculateHashingSpeed, Math_log2, of_Z.
  rewrite Qcompare_inject_Z_0; simpl Z.compare; cbv iota.
  change (inject_Z 4) with 4.
  assert (Hle : Qle_bool 1 (log2_approx 4) = true)
    by (apply Qle_bool_iff; rewrite H; discriminate).
  unfold Math_max; rewrite Hle.
  unfold num_div; rewrite Qeq_bool_false by (rewrite H; discriminate).
  unfold Math_floor, of_Z; do 2 f_equal.
  rewrite <- (Qfloor_Z 250000); apply Qfloor_comp.
  rewrite H; reflexivity.
Qed.

(** C4. Length 4 over 26 letters, the sequential method and the
    cpu_basic profile: the search space is 26^4 = 456976, the hashing
    speed 500000 / max(1, log2 4) = 250000, and the estimated time to
    complete 456976 / 250000 seconds, which is 1.83 to two decimals. *)
Theorem scenario_four_letters_cpu_basic
        (st st_tick : State) (now t : Z) (b : number) :
  log2_approx 4 == 2 ->
  isRunning (simulation st) = true ->
  method (simulation st) = sequential ->
  hardware (simulation st) = cpu_basic ->
  password st = {| target_length := 4; charset := 26 |} ->
  calculatePasswordSpace 4 26 sequentialAttack = of_Z 456976
  /\ (26 ^ 4 = 456976)%Z
  /\ hashing b cpu_basic 4 = of_Z 250000
  /\ exists cl q,
       setup st now = Some cl
       /\ estimatedTimeToComplete (stats (fst (animate cl t st_tick))) = Fin q
       /\ q == 456976 / 250000
       /\ 1825 # 1000 <= q /\ q < 1835 # 1000.
Proof.
  intros Hlog Hrun Hm Hhw Hpw.
  split; [reflexivity | split; [reflexivity | split; [now apply hashing_cpu_basic_4 |]]].
  destruct (effectSetup_running st now Hrun) as (cl & Hcl).
  pose proof (sequential_closure st now cl Hcl Hm) as Hseq.
  destruct (effectSetup_inv st now cl Hcl) as (_ & _ & _ & _ & Htot & Hhs & _).
  rewrite Hpw, Hseq in Htot; rewrite Hpw, Hhw in Hhs; simpl in Htot, Hhs.
  rewrite hashing_cpu_basic_4 in Hhs by assumption.
  exists cl; eexists; split; [exact Hcl|].
  unfold animate; simpl; rewrite Htot, Hhs, Hseq.
  split; [reflexivity|].
  split; [reflexivity | split; discriminate || reflexivity].
Qed.


(** C6, as the code has it. The efficiency is the plain quotient
    [attempts / (energyCost * 1000)]: at a clock reading with zero
    elapsed time the energy cost is zero and the quotient is [NaN]; at
    every later reading the energy cost is positive and the efficiency
    is that finite quotient. *)
Theorem animate_efficiency
        (st st_tick : State) (now t : Z) (cl : Closure) :
  setup st now = Some cl ->
  (1 <= charset (password st))%Z ->
  (0 <= target_length (password st))%Z ->
  let elapsed := (inject_Z t - startTime cl) / 1000 in
  let st' := fst (animate cl t st_tick) in
  (elapsed == 0 ->
   num_eq (energyCost (stats st')) (Fin 0)
   /\ passwordsPerWatt (stats st') = NaN)
  /\ (0 < elapsed ->
      exists a e,
        attempts (stats st') = Fin a
        /\ energyCost (stats st') = Fin e
        /\ 0 < e
        /\ passwordsPerWatt (stats st') = Fin (a / (e * 1000))).
Proof.
  intros Hcl Hcs Hlen elapsed st'; subst st'.
  destruct (effectSetup_inv st now cl Hcl) as (_ & Hin & _ & _ & Htot & Hhs & _).
  destruct (passwordSpace_fin _ _ _ Hcs Hlen Hin) as (T & HT & HT1).
  rewrite HT in Htot.
  destruct (hashingSpeed_fin
              (of_Z (baseSpeed (HARDWARE_PROFILES (hardware (simulation st)))))
              (hardware (simulation st)) _ Hlen) as (h & Hh & _).
  rewrite Hh in Hhs.
  assert (HTq : 0 < inject_Z T)
    by (change 0 with (inject_Z 0); rewrite <- Zlt_Qlt; lia).
  assert (Hpc : 0 < powerCost (HARDWARE_PROFILES (closure_hardware cl)))
    by (destruct (closure_hardware cl); reflexivity).
  unfold animate; cbn [fst stats attempts energyCost passwordsPerWatt].
  fold elapsed.
  rewrite Htot, Hhs; unfold calculateEnergyCost, of_Z;
    cbn [num_mul Math_floor]; unfold of_Z.
  match goal with |- context [Math_min (Fin ?x) (Fin ?y)] =>
    set (raw := x);
    destruct (Math_min_fin raw y) as (a & Hmin & Hraw & _ & Ha) end.
  rewrite Hmin.
  split.
  - intros H0.
    assert (Hx : raw == 0).
    { unfold raw; rewrite <- (Qfloor_Z 0) at 1.
      apply inject_Z_injective, Qfloor_comp; rewrite H0; ring. }
    assert (Ha0 : a == 0) by (destruct Ha as [->| ->]; [exact Hx | lra]).
    split.
    + cbn [num_eq]; rewrite H0; unfold Qdiv; ring.
    + unfold num_div.
      assert (Hz : elapsed / 3600 * powerCost (HARDWARE_PROFILES (closure_hardware cl)) * 1000 == 0)
        by (rewrite H0; unfold Qdiv; ring).
      apply Qeq_eq_bool in Hz; rewrite Hz.
      now rewrite Ha0.
  - intros Hpos.
    exists a, (elapsed / 3600 * powerCost (HARDWARE_PROFILES (closure_hardware cl))).
    assert (He : 0 < elapsed / 3600 * powerCost (HARDWARE_PROFILES (closure_hardware cl))).
    { apply Qmult_lt_0_compat; [|assumption].
      apply Qlt_shift_div_l; [reflexivity | lra]. }
    split; [reflexivity | split; [reflexivity | split; [exact He |]]].
    unfold num_div; rewrite Qeq_bool_false; [reflexivity | lra].
Qed.

End WithLog2.

(** C7. Whatever the state before, [handleReset] leaves the elapsed
    time, the attempts and the progress at zero, the time series empty
    and the simulation not running. *)
Theorem handleReset_clears (st : State) :
  timeElapsed (stats (handleReset st)) = 0
  /\ attempts (stats (handleReset st)) = Fin 0
  /\ progress (simulation (handleReset st)) = Fin 0
  /\ graphData (handleReset st) = []
  /\ isRunning (simulation (handleReset st)) = false.
Proof. unfold handleReset; simpl; tauto. Qed.

(** *** The time series *)

Lemma pushSample_is_suffix (prev : list GraphPoint) (sample : GraphPoint) :
  pushSample prev sample
  = skipn (List.length (prev ++ [sample]) - 30) (prev ++ [sample]).
Proof.
  unfold pushSample, sliceLast.
  destruct (Nat.ltb_spec 30 (List.length (prev ++ [sample]))) as [H|H];
    [reflexivity|].
  replace (List.length (prev ++ [sample]) - 30)%nat with 0%nat by lia.
  reflexivity.
Qed.

(** C8. A tick appends one sample to the time series and keeps the
    last 30 entries of the result: the new buffer has at most 30
    samples, it is the old buffer followed by the new sample with only
    a prefix (the oldest samples) removed, and the samples kept are
    unchanged and in order. *)
Theorem animate_graphData_bounded (cl : Closure) (t : Z) (st : State) :
  let buffer := graphData (fst (animate cl t st)) in
  (List.length buffer <= 30)%nat
  /\ List.length buffer = Nat.min 30 (List.length (graphData st) + 1)
  /\ exists sample dropped,
       (graphData st ++ [sample])%list = (dropped ++ buffer)%list
       /\ point_time sample = (inject_Z t - startTime cl) / 1000
       /\ (List.length (graphData st) < 30 -> dropped = [])%nat.
Proof.
  intros buffer; subst buffer; unfold animate; cbn [fst graphData].
  rewrite pushSample_is_suffix.
  match goal with |- context [(graphData st ++ [?s])%list] => set (sample := s) end.
  assert (Hl : List.length (graphData st ++ [sample])
               = (List.length (graphData st) + 1)%nat)
    by (rewrite length_app; reflexivity).
  split; [rewrite length_skipn; lia|].
  split; [rewrite length_skipn; lia|].
  exists sample,
    (firstn (List.length (graphData st ++ [sample]) - 30) (graphData st ++ [sample])).
  split; [now rewrite firstn_skipn|].
  split; [reflexivity|].
  intros Hlt.
  replace (List.length (graphData st ++ [sample]) - 30)%nat with 0%nat by lia.
  reflexivity.
Qed.

(** *** The definitions at concrete inputs *)

Lemma fourLetters_setup :
  effectSetup log2OnPowersOfTwo fourLetters 0 = Some fourLettersClosure.
Proof. reflexivity. Qed.

Example animate_after_one_second :
  attempts (stats (fst (animate fourLettersClosure 1000 fourLetters)))
  = Fin 250000
  /\ remainingCombinations (stats (fst (animate fourLettersClosure 1000 fourLetters)))
     = Fin 206976
  /\ snd (animate fourLettersClosure 1000 fourLetters) = true.
Proof. repeat split. Qed.

Example animate_after_two_seconds :
  attempts (stats (fst (animate fourLettersClosure 2000 fourLetters)))
  = Fin 456976
  /\ num_eq (progress (simulation (fst (animate fourLettersClosure 2000 fourLetters))))
            (Fin 100)
  /\ isRunning (simulation (fst (animate fourLettersClosure 2000 fourLetters)))
     = false
  /\ snd (animate fourLettersClosure 2000 fourLetters) = false.
Proof. repeat split. Qed.

Lemma scenario_four_letters_cpu_basic_witness :
  log2OnPowersOfTwo 4 == 2
  /\ calculatePasswordSpace 4 26 sequentialAttack = of_Z 456976
  /\ (26 ^ 4 = 456976)%Z
  /\ calculateHashingSpeed log2OnPowersOfTwo (of_Z 500000) cpu_basic 4
     = of_Z 250000
  /\ exists cl q,
       effectSetup log2OnPowersOfTwo fourLetters 0 = Some cl
       /\ estimatedTimeToComplete (stats (fst (animate cl 1000 fourLetters)))
          = Fin q
       /\ q == 456976 / 250000
       /\ 1825 # 1000 <= q /\ q < 1835 # 1000.
Proof.
  assert (Hlog : log2OnPowersOfTwo 4 == 2) by reflexivity.
  split; [exact Hlog |].
  exact (scenario_four_letters_cpu_basic log2OnPowersOfTwo fourLetters
           fourLetters 0 1000 (of_Z 500000) Hlog eq_refl eq_refl eq_refl eq_refl).
Defined.


(** The first tick of a fresh run, taken at the clock reading the run
    started at, has zero energy cost and an efficiency of [NaN], not
    zero. *)
Lemma animate_efficiency_NaN_at_start :
  effectSetup log2OnPowersOfTwo fourLetters 0 = Some fourLettersClosure
  /\ num_eq (energyCost (stats (fst (animate fourLettersClosure 0 fourLetters))))
            (Fin 0)
  /\ passwordsPerWatt (stats (fst (animate fourLettersClosure 0 fourLetters)))
     = NaN
  /\ ~ num_eq (passwordsPerWatt
                 (stats (fst (animate fourLettersClosure 0 fourLetters))))
              (Fin 0).
Proof.
  split; [reflexivity | split; [reflexivity | split; [reflexivity |]]].
  intros H; exact H.
Defined.

Lemma animate_efficiency_witness :
  effectSetup log2OnPowersOfTwo fourLetters 0 = Some fourLettersClosure
  /\ (1 <= charset (password fourLetters))%Z
  /\ (0 <= target_length (password fourLetters))%Z
  /\ ((inject_Z 0 - startTime fourLettersClosure) / 1000 == 0
      /\ num_eq (energyCost (stats (fst (animate fourLettersClosure 0 fourLetters))))
                (Fin 0)
      /\ passwordsPerWatt (stats (fst (animate fourLettersClosure 0 fourLetters)))
         = NaN)
  /\ (0 < (inject_Z 1000 - startTime fourLettersClosure) / 1000
      /\ exists a e,
           attempts (stats (fst (animate fourLettersClosure 1000 fourLetters)))
           = Fin a
           /\ energyCost (stats (fst (animate fourLettersClosure 1000 fourLetters)))
              = Fin e
           /\ 0 < e
           /\ passwordsPerWatt
                (stats (fst (animate fourLettersClosure 1000 fourLetters)))
              = Fin (a / (e * 1000))).
Proof.
  assert (H1 : effectSetup log2OnPowersOfTwo fourLetters 0 = Some fourLettersClosure)
    by reflexivity.
  assert (H3 : (1 <= charset (password fourLetters))%Z) by (simpl; lia).
  assert (H4 : (0 <= target_length (password fourLetters))%Z) by (simpl; lia).
  assert (Hz : (inject_Z 0 - startTime fourLettersClosure) / 1000 == 0)
    by reflexivity.
  assert (Hp : 0 < (inject_Z 1000 - startTime fourLettersClosure) / 1000)
    by reflexivity.
  split; [exact H1 | split; [exact H3 | split; [exact H4 |]]].
  split.
  - split; [exact Hz |].
    exact (proj1 (animate_efficiency log2OnPowersOfTwo fourLetters
                    fourLetters 0 0 fourLettersClosure H1 H3 H4) Hz).
  - split; [exact Hp |].
    exact (proj2 (animate_efficiency log2OnPowersOfTwo fourLetters
                    fourLetters 0 1000 fourLettersClosure H1 H3 H4) Hp).
Defined.

(** Over a whole run the time series never grows past 30 samples. *)
Lemma frames_graphData_bounded (cl : Closure) (samples : list Z) :
  forall st,
    (List.length (graphData st) <= 30)%nat ->
    (List.length (graphData (frames cl samples st)) <= 30)%nat.
Proof.
  induction samples as [|t rest IH]; intros st Hst; [exact Hst|].
  cbn [frames].
  destruct (animate cl t st) as [st' again] eqn:E.
  assert (Hb : (List.length (graphData st') <= 30)%nat).
  { replace st' with (fst (animate cl t st)) by now rewrite E.
    unfold animate; cbn [fst graphData].
    rewrite pushSample_is_suffix, length_skipn; lia. }
  destruct again; [now apply IH | exact Hb].
Qed.

End SimulatorFacts.

(* ================================================================== *)
(** * Further properties of the generators *)

Module GeneratorMore.
Import CryptoUtils Generator GeneratorFacts.

Local Open Scope string_scope.
Local Open Scope Z_scope.

(** *** The entropy source *)

Lemma uint32_range (z : Z) : 0 <= uint32 z < 2 ^ 32.
Proof. unfold uint32; apply Z.mod_pos_bound; reflexivity. Qed.

Lemma getRandomValues_nth (n : nat) (rng : entropy) :
  Z.of_nat n <= 16384 ->
  exists vals,
    getRandomValues n rng = Returned (vals, fun i => rng (i + n)%nat)
    /\ List.length vals = n
    /\ forall i, (i < n)%nat -> nth_error vals i = Some (uint32 (rng i)).
Proof.
  intros Hq; rewrite getRandomValues_within_quota by assumption.
  eexists; split; [reflexivity|].
  split; [now rewrite length_map, length_seq|].
  intros i Hi.
  rewrite nth_error_map, nth_error_seq.
  destruct (Nat.ltb_spec i n) as [_|?]; [reflexivity | lia].
Qed.

(** [getRandomNumbers(n)] with [0 <= n <= 16384], a request within
    the quota of [crypto.getRandomValues], hands back exactly [n] values,
    the next [n] of the source in order, each reduced to 32 bits, and
    leaves the source advanced by [n]. *)
Theorem getRandomNumbers_draws (n : Z) (rng : entropy) :
  0 <= n <= 16384 ->
  exists vals,
    getRandomNumbers n rng
    = Returned (vals, fun i => rng (i + Z.to_nat n)%nat)
    /\ Z.of_nat (List.length vals) = n
    /\ (forall i, (i < Z.to_nat n)%nat ->
                  nth_error vals i = Some (rng i mod 2 ^ 32))
    /\ Forall (fun v => 0 <= v < 2 ^ 32) vals.
Proof.
  intros Hn; unfold getRandomNumbers.
  destruct (Z.ltb_spec n 0) as [?|_]; [lia|].
  destruct (getRandomValues_nth (Z.to_nat n) rng) as (vals & -> & Hl & Hnth);
    [lia|].
  exists vals; split; [reflexivity|].
  split; [lia|].
  split; [exact Hnth|].
  apply Forall_forall; intros v Hv.
  apply In_nth_error in Hv; destruct Hv as (i & Hi).
  assert (Hlt : (i < Z.to_nat n)%nat)
    by (rewrite <- Hl; apply nth_error_Some; congruence).
  rewrite (Hnth i Hlt) in Hi; injection Hi as <-.
  apply uint32_range.
Qed.

Lemma getRandomNumbers_draws_witness :
  0 <= 5 <= 16384
  /\ exists vals,
       getRandomNumbers 5 sampleEntropy
       = Returned (vals, fun i => sampleEntropy (i + Z.to_nat 5)%nat)
       /\ Z.of_nat (List.length vals) = 5
       /\ (forall i, (i < Z.to_nat 5)%nat ->
                     nth_error vals i = Some (sampleEntropy i mod 2 ^ 32))
       /\ Forall (fun v => 0 <= v < 2 ^ 32) vals.
Proof.
  assert (H : 0 <= 5 <= 16384) by (split; discriminate).
  split; [exact H | exact (getRandomNumbers_draws 5 sampleEntropy H)].
Defined.

(** [getRandomNumber(max)] with [max > 0] returns an integer of
    [[0, max)], the remainder of the next 32-bit value of the source,
    and consumes that one value. *)
Theorem getRandomNumber_below_max (max : Z) (rng : entropy) :
  0 < max ->
  exists k,
    getRandomNumber max rng = Returned (Some k, fun i => rng (i + 1)%nat)
    /\ k = (rng 0%nat mod 2 ^ 32) mod max
    /\ 0 <= k < max.
Proof.
  intros Hmax; unfold getRandomNumber, bind.
  rewrite getRandomValues_within_quota by (simpl; lia).
  unfold ret; simpl.
  destruct (Z.eqb_spec max 0) as [?|_]; [lia|].
  eexists; split; [reflexivity|].
  split; [reflexivity|].
  apply Z.mod_pos_bound; assumption.
Qed.

Lemma getRandomNumber_below_max_witness :
  0 < 900
  /\ exists k,
       getRandomNumber 900 sampleEntropy
       = Returned (Some k, fun i => sampleEntropy (i + 1)%nat)
       /\ k = (sampleEntropy 0%nat mod 2 ^ 32) mod 900
       /\ 0 <= k < 900.
Proof.
  assert (H : 0 < 900) by reflexivity.
  split; [exact H | exact (getRandomNumber_below_max 900 sampleEntropy H)].
Defined.

(** *** Character-based generation *)

Lemma get_append_r (s t : string) (k : nat) :
  String.get (String.length s + k) (s ++ t) = String.get k t.
Proof.
  induction s as [|c s IH]; simpl; [reflexivity | exact IH].
Qed.

(** The loop writes, at position [k] of what it appends, the alphabet
    character selected by the value at index [i + k] of the buffer. *)
Lemma fillPassword_positions (chars : string) (vals : list Z) :
  chars <> "" ->
  forall n i password,
    (i + n <= List.length vals)%nat ->
    exists s,
      fillPassword chars vals i n password = password ++ s
      /\ String.length s = n
      /\ forall k, (k < n)%nat ->
           exists v,
             nth_error vals (i + k) = Some v
             /\ String.get k s
                = String.get (Z.to_nat (v mod Z.of_nat (String.length chars)))
                             chars.
Proof.
  intros Hne; induction n as [|n IH]; intros i password Hi; simpl.
  - exists ""; rewrite append_empty_r; split; [reflexivity|].
    split; [reflexivity | intros k Hk; lia].
  - destruct (nth_error vals i) as [v|] eqn:Hv.
    2:{ apply nth_error_None in Hv; lia. }
    destruct (charAtIndex_mod chars v Hne) as (c & Hc & _).
    rewrite Hc.
    destruct (IH (S i) (appendValue password (Some (String c ""))))
      as (s & Hs & Hl & Hpos); [lia|].
    exists (String c s); split; [|split].
    + rewrite Hs; unfold appendValue; now rewrite append_assoc.
    + simpl; now rewrite Hl.
    + intros [|k] Hk.
      * exists v; rewrite Nat.add_0_r; split; [exact Hv|].
        unfold charAtIndex in Hc.
        destruct (v mod Z.of_nat (String.length chars) <? 0); [discriminate|].
        destruct (String.get (Z.to_nat (v mod Z.of_nat (String.length chars))) chars)
          as [c'|]; [|discriminate].
        injection Hc as ->; reflexivity.
      * destruct (Hpos k) as (v' & Hv' & Hg); [lia|].
        exists v'; split; [|exact Hg].
        now replace (i + S k)%nat with (S i + k)%nat by lia.
Qed.

Section WithCharacterSets.

Variables LOWERCASE_CHARS UPPERCASE_CHARS NUMBER_CHARS SYMBOL_CHARS
          AMBIGUOUS_CHARS : string.

Local Abbreviation assembled :=
  (assembleChars LOWERCASE_CHARS UPPERCASE_CHARS NUMBER_CHARS SYMBOL_CHARS
                 AMBIGUOUS_CHARS).
Local Abbreviation generate :=
  (generatePassword LOWERCASE_CHARS UPPERCASE_CHARS NUMBER_CHARS SYMBOL_CHARS
                    AMBIGUOUS_CHARS).
Local Abbreviation inAlphabet :=
  (Generator.inAlphabet LOWERCASE_CHARS UPPERCASE_CHARS NUMBER_CHARS
                        SYMBOL_CHARS AMBIGUOUS_CHARS).

(** For a length within the quota, characters are selected in draw
    order, one raw value each and none redrawn: character [i] of the
    password is the alphabet character at index
    [raw_i mod 2^32 mod alphabet size], and the call leaves the source
    advanced by exactly [options.length] values. *)
Theorem generatePassword_draw_order
        (options : PasswordOptions) (rng : entropy) :
  assembled options <> "" ->
  0 <= length options <= 16384 ->
  exists password,
    generate options rng
    = Returned (password, fun i => rng (i + Z.to_nat (length options))%nat)
    /\ forall i, (i < Z.to_nat (length options))%nat ->
         String.get i password
         = String.get
             (Z.to_nat ((rng i mod 2 ^ 32)
                        mod Z.of_nat (String.length (assembled options))))
             (assembled options).
Proof.
  intros Hne Hlen; unfold generatePassword.
  destruct (Nat.eqb_spec (String.length (assembled options)) 0) as [H0|_].
  { destruct (assembled options); [congruence | discriminate]. }
  unfold bind, getRandomNumbers.
  destruct (Z.ltb_spec (length options) 0) as [?|_]; [lia|].
  destruct (getRandomValues_nth (Z.to_nat (length options)) rng)
    as (vals & -> & Hl & Hnth); [lia|].
  destruct (fillPassword_positions (assembled options) vals Hne
              (Z.to_nat (length options)) 0%nat "")
    as (s & Hs & _ & Hpos); [lia|].
  exists s; unfold ret; rewrite Hs; simpl.
  split; [reflexivity|].
  intros i Hi; destruct (Hpos i Hi) as (v & Hv & Hg).
  simpl in Hv; rewrite (Hnth i Hi) in Hv; injection Hv as <-.
  exact Hg.
Qed.

Lemma assembled_empty_iff (options : PasswordOptions) :
  assembled options = "" <-> forall c, ~ inAlphabet options c.
Proof.
  split.
  - intros He c Hc; apply assembled_inAlphabet in Hc.
    unfold occurs in Hc; rewrite He in Hc; exact Hc.
  - intros Hnone; destruct (assembled options) as [|c s] eqn:E; [reflexivity|].
    exfalso; apply (Hnone c), assembled_inAlphabet.
    unfold occurs; rewrite E; simpl; auto.
Qed.

(** The empty-alphabet error is thrown exactly when no character is
    both in an enabled class and, under [excludeAmbiguous], not
    ambiguous, whatever the length and the entropy are. *)
Theorem generatePassword_throws_iff_no_character
        (options : PasswordOptions) (rng : entropy) :
  generate options rng
  = Thrown (Error "At least one character set must be selected")
  <-> forall c, ~ inAlphabet options c.
Proof.
  rewrite <- assembled_empty_iff; unfold generatePassword.
  destruct (assembled options) as [|c s] eqn:E; simpl.
  - split; reflexivity.
  - split; [|discriminate].
    unfold bind, getRandomNumbers, throw.
    destruct (length options <? 0); [discriminate|].
    unfold getRandomValues, ret.
    destruct (QUOTA_BYTES <? 4 * Z.of_nat (Z.to_nat (length options)));
      discriminate.
Qed.

End WithCharacterSets.

Lemma generatePassword_draw_order_witness :
  assembleChars lowercaseLetters uppercaseLetters digits symbols ambiguous
                defaultOptions <> ""
  /\ 0 <= length defaultOptions <= 16384
  /\ exists password,
       generatePassword lowercaseLetters uppercaseLetters digits symbols
                        ambiguous defaultOptions sampleEntropy
       = Returned (password,
                   fun i => sampleEntropy (i + Z.to_nat (length defaultOptions))%nat)
       /\ forall i, (i < Z.to_nat (length defaultOptions))%nat ->
            String.get i password
            = String.get
                (Z.to_nat
                   ((sampleEntropy i mod 2 ^ 32)
                    mod Z.of_nat
                          (String.length
                             (assembleChars lowercaseLetters uppercaseLetters
                                digits symbols ambiguous defaultOptions))))
                (assembleChars lowercaseLetters uppercaseLetters digits
                               symbols ambiguous defaultOptions).
Proof.
  assert (H1 : assembleChars lowercaseLetters uppercaseLetters digits symbols
                 ambiguous defaultOptions <> "") by (vm_compute; discriminate).
  assert (H2 : 0 <= length defaultOptions <= 16384)
    by (vm_compute; split; discriminate).
  split; [exact H1 | split; [exact H2 |]].
  exact (generatePassword_draw_order lowercaseLetters uppercaseLetters digits
           symbols ambiguous defaultOptions sampleEntropy H1 H2).
Defined.

(** *** Word-based generation *)

Lemma toUpperCase_idempotent (c : ascii) :
  toUpperCase (toUpperCase c) = toUpperCase c.
Proof.
  destruct c as [[] [] [] [] [] [] [] []]; reflexivity.
Qed.

(** [capitalizeFirstLetter] keeps the length of the word and every
    character after the first, and capitalizing twice is capitalizing
    once. *)
Theorem capitalizeFirstLetter_shape (word : string) :
  String.length (capitalizeFirstLetter word) = String.length word
  /\ capitalizeFirstLetter (capitalizeFirstLetter word)
     = capitalizeFirstLetter word
  /\ forall k, String.get (S k) (capitalizeFirstLetter word)
               = String.get (S k) word.
Proof.
  destruct word as [|c rest]; simpl; [tauto|].
  rewrite toUpperCase_idempotent; tauto.
Qed.

Lemma three_digits_checked :
  forallb
    (fun k =>
       let text := NilZero.string_of_int (Z.to_int (Z.of_nat k)) in
       (String.length text =? 3)%nat
       && forallb (fun c => (48 <=? nat_of_ascii c)%nat
                            && (nat_of_ascii c <=? 57)%nat)
                  (list_ascii_of_string text))
    (seq 100 900) = true.
Proof. vm_compute; reflexivity. Qed.

Lemma three_digits (n : Z) :
  100 <= n <= 999 ->
  String.length (NilZero.string_of_int (Z.to_int n)) = 3%nat
  /\ Forall (fun c => (48 <= nat_of_ascii c <= 57)%nat)
            (list_ascii_of_string (NilZero.string_of_int (Z.to_int n))).
Proof.
  intros Hn.
  pose proof three_digits_checked as H.
  rewrite forallb_forall in H.
  specialize (H (Z.to_nat n)).
  rewrite Z2Nat.id in H by lia.
  assert (Hin : In (Z.to_nat n) (seq 100 900)) by (apply in_seq; lia).
  apply H in Hin; cbv zeta in Hin.
  apply andb_true_iff in Hin; destruct Hin as (Hl & Hd).
  split; [now apply Nat.eqb_eq|].
  apply Forall_forall; intros c Hc.
  rewrite forallb_forall in Hd; apply Hd in Hc.
  apply andb_true_iff in Hc; destruct Hc as (H1 & H2).
  apply Nat.leb_le in H1, H2; lia.
Qed.

(** With [wordCount <= 0] no word is drawn and nothing throws: the
    result is the empty string, or, under [includeNumbers], just the
    numeric token, three decimal digits of a number in [[100, 999]]
    taken from the next value of the source. *)
Theorem generateWordBasedPassword_no_words
        (options : PasswordOptions) (rng : entropy) :
  wordCount options <= 0 ->
  if includeNumbers options
  then exists n,
         n = 100 + (rng 0%nat mod 2 ^ 32) mod 900
         /\ 100 <= n <= 999
         /\ generateWordBasedPassword options rng
            = Returned (NilZero.string_of_int (Z.to_int n),
                        fun i => rng (i + 1)%nat)
         /\ String.length (NilZero.string_of_int (Z.to_int n)) = 3%nat
  else generateWordBasedPassword options rng = Returned ("", rng).
Proof.
  intros Hn.
  unfold generateWordBasedPassword, joinWords.
  replace (Z.to_nat (wordCount options)) with 0%nat by lia.
  cbn [arrayFrom]; unfold bind at 1; unfold ret at 1.
  destruct (includeNumbers options).
  - pose proof (Z.mod_pos_bound (rng 0%nat mod 2 ^ 32) 900 ltac:(lia)) as Hb.
    exists (100 + (rng 0%nat mod 2 ^ 32) mod 900).
    split; [reflexivity | split; [lia | split]].
    + reflexivity.
    + apply three_digits; lia.
  - reflexivity.
Qed.

Lemma generateWordBasedPassword_no_words_witness :
  wordCount (Component.noWords true) <= 0
  /\ exists n,
       n = 100 + (sampleEntropy 0%nat mod 2 ^ 32) mod 900
       /\ 100 <= n <= 999
       /\ generateWordBasedPassword (Component.noWords true) sampleEntropy
          = Returned (NilZero.string_of_int (Z.to_int n),
                      fun i => sampleEntropy (i + 1)%nat)
       /\ String.length (NilZero.string_of_int (Z.to_int n)) = 3%nat.
Proof.
  assert (H : wordCount (Component.noWords true) <= 0) by discriminate.
  split; [exact H |].
  exact (generateWordBasedPassword_no_words (Component.noWords true)
           sampleEntropy H).
Defined.

Lemma joinWords_tokens_witness :
  ENGLISH_WORDS <> []
  /\ exists ws suffix rng',
       joinWords (Some ENGLISH_WORDS) defaultOptions sampleEntropy
       = Returned (String.concat (wordSeparator defaultOptions)
                     (map capitalizeFirstLetter ws ++ suffix)%list, rng')
       /\ List.length ws = Z.to_nat (wordCount defaultOptions)
       /\ Forall (fun w => In w ENGLISH_WORDS) ws
       /\ if includeNumbers defaultOptions
          then exists n, 100 <= n <= 999
                         /\ suffix = [NilZero.string_of_int (Z.to_int n)]
          else suffix = [].
Proof.
  assert (H : ENGLISH_WORDS <> []) by discriminate.
  split; [exact H |].
  exact (joinWords_tokens ENGLISH_WORDS defaultOptions sampleEntropy H).
Defined.

(** *** Words in draw order *)

(** The word the [i]-th raw value of the source selects from a list. *)
Local Abbreviation picked l rng i :=
  (nth (Z.to_nat ((rng i mod 2 ^ 32) mod Z.of_nat (List.length l))) l "").






End GeneratorMore.

(* ================================================================== *)
(** * Properties of the generator component's handlers *)

Module ComponentFacts.
Import CryptoUtils Generator GeneratorFacts Component.

Local Open Scope string_scope.
Local Open Scope Z_scope.

(** Whatever the input field holds, the bulk count that is stored lies
    in [[10, 100]]; a parsed value already in that range is stored as
    it is, and an unparsable or zero value becomes 10. *)
Theorem clampBulkCount_range (parsed : option Z) :
  10 <= clampBulkCount parsed <= 100
  /\ (forall z, parsed = Some z -> 10 <= z <= 100 -> clampBulkCount parsed = z)
  /\ (parsed = None \/ parsed = Some 0 -> clampBulkCount parsed = 10).
Proof.
  unfold clampBulkCount; split; [|split].
  - destruct parsed as [z|]; [destruct (z =? 0)|]; lia.
  - intros z -> Hz; destruct (Z.eqb_spec z 0); lia.
  - intros [->| ->]; reflexivity.
Qed.

(** *** The favourites *)

Lemma existsb_eqb_In (p : string) (l : list string) :
  existsb (String.eqb p) l = true <-> In p l.
Proof.
  rewrite existsb_exists; split.
  - intros (x & Hx & He); apply String.eqb_eq in He; now subst.
  - intros H; exists p; split; [exact H | apply String.eqb_refl].
Qed.

Lemma In_filter_neq (p q : string) (l : list string) :
  In q (filter (fun x => negb (String.eqb x p)) l) <-> In q l /\ q <> p.
Proof.
  rewrite filter_In, negb_true_iff, String.eqb_neq; tauto.
Qed.

(** [toggleFavorite] flips the membership of the given password and of
    no other, keeps the set free of duplicates, and stores the new set. *)
Theorem toggleFavorite_flips (target : string) (st : State) :
  let st' := toggleFavorite target st in
  (In target (favorites st') <-> ~ In target (favorites st))
  /\ (forall q, q <> target ->
                (In q (favorites st') <-> In q (favorites st)))
  /\ (NoDup (favorites st) -> NoDup (favorites st'))
  /\ storedFavorites st' = Some (favorites st')
  /\ passwordHistory st' = passwordHistory st.
Proof.
  unfold toggleFavorite; cbn [favorites storedFavorites passwordHistory].
  destruct (existsb (String.eqb target) (favorites st)) eqn:E.
  - apply existsb_eqb_In in E.
    split; [rewrite In_filter_neq; tauto|].
    split; [intros q Hq; rewrite In_filter_neq; tauto|].
    split; [apply NoDup_filter | tauto].
  - assert (Hn : ~ In target (favorites st))
      by (rewrite <- existsb_eqb_In, E; discriminate).
    split; [rewrite in_app_iff; simpl; tauto|].
    split.
    { intros q Hq; rewrite in_app_iff; simpl; intuition congruence. }
    split; [|tauto].
    intros Hnd; apply NoDup_app; [exact Hnd | repeat constructor; simpl; tauto |].
    intros x Hx [<-|[]]; contradiction.
Qed.

(** Toggling a favourite twice restores the set; when the password was
    not a favourite the list is restored exactly. *)
Theorem toggleFavorite_twice (target : string) (st : State) :
  (forall q, In q (favorites (toggleFavorite target (toggleFavorite target st)))
             <-> In q (favorites st))
  /\ (~ In target (favorites st) ->
      favorites (toggleFavorite target (toggleFavorite target st))
      = favorites st).
Proof.
  unfold toggleFavorite; cbn [favorites].
  destruct (existsb (String.eqb target) (favorites st)) eqn:E.
  - apply existsb_eqb_In in E.
    assert (E2 : existsb (String.eqb target)
                   (filter (fun p => negb (String.eqb p target)) (favorites st))
                 = false).
    { apply not_true_iff_false; rewrite existsb_eqb_In, In_filter_neq; tauto. }
    rewrite E2; split; [|tauto].
    intros q; rewrite in_app_iff, In_filter_neq; simpl.
    destruct (String.eqb_spec q target) as [->|Hq]; [tauto | intuition congruence].
  - assert (Hn : ~ In target (favorites st))
      by (rewrite <- existsb_eqb_In, E; discriminate).
    assert (E2 : existsb (String.eqb target) (favorites st ++ [target]) = true)
      by (apply existsb_eqb_In, in_app_iff; simpl; tauto).
    rewrite E2.
    assert (Hf : filter (fun p => negb (String.eqb p target))
                   (favorites st ++ [target]) = favorites st).
    { rewrite filter_app; simpl; rewrite String.eqb_refl; simpl.
      rewrite app_nil_r.
      clear E E2; induction (favorites st) as [|x l IH]; [reflexivity|].
      simpl; destruct (String.eqb_spec x target) as [->|Hx].
      - exfalso; apply Hn; simpl; auto.
      - simpl; f_equal; apply IH; intros H; apply Hn; simpl; auto. }
    rewrite Hf; split; [tauto | reflexivity].
Qed.

(** *** Tags *)

Lemma handleRemoveTag_strips_aux (target tagToRemove : string) (st : State) :
  (forall e, In e (passwordHistory (handleRemoveTag target tagToRemove st)) ->
             entry_password e = target -> ~ In tagToRemove (tags e))
  /\ storedHistory (handleRemoveTag target tagToRemove st)
     = Some (passwordHistory st).
Proof.
  unfold handleRemoveTag; cbn [passwordHistory storedHistory].
  split; [|reflexivity].
  intros e He Ht; apply in_map_iff in He; destruct He as (e0 & <- & _).
  destruct (String.eqb_spec (entry_password e0) target) as [_|Hne].
  - cbn [tags]; rewrite filter_In, negb_true_iff, String.eqb_neq; tauto.
  - contradiction.
Qed.


(** When an entry of the password does carry the tag, the history that
    [handleRemoveTag] saves differs from the history it leaves in the
    state: the saved copy still has the tag. *)
Theorem handleRemoveTag_saves_previous
        (target tagToRemove : string) (st : State) (e : PasswordHistory) :
  In e (passwordHistory st) ->
  entry_password e = target ->
  In tagToRemove (tags e) ->
  storedHistory (handleRemoveTag target tagToRemove st)
  <> Some (passwordHistory (handleRemoveTag target tagToRemove st)).
Proof.
  intros He Ht Htag Heq.
  destruct (handleRemoveTag_strips_aux target tagToRemove st) as (Hs & Hstored).
  rewrite Hstored in Heq; injection Heq as Heq.
  rewrite Heq in He.
  exact (Hs e He Ht Htag).
Qed.

Lemma handleRemoveTag_saves_previous_witness :
  In taggedEntry (passwordHistory taggedState)
  /\ entry_password taggedEntry = "Star-Rock-Blue"
  /\ In "work" (tags taggedEntry)
  /\ storedHistory (handleRemoveTag "Star-Rock-Blue" "work" taggedState)
     <> Some (passwordHistory (handleRemoveTag "Star-Rock-Blue" "work" taggedState)).
Proof.
  assert (H1 : In taggedEntry (passwordHistory taggedState)) by (simpl; auto).
  assert (H2 : entry_password taggedEntry = "Star-Rock-Blue") by reflexivity.
  assert (H3 : In "work" (tags taggedEntry)) by (simpl; auto).
  split; [exact H1 | split; [exact H2 | split; [exact H3 |]]].
  exact (handleRemoveTag_saves_previous "Star-Rock-Blue" "work" taggedState
           taggedEntry H1 H2 H3).
Defined.

(** *** Generation *)


Section WithEnvironment.

Variables LOWERCASE_CHARS UPPERCASE_CHARS NUMBER_CHARS SYMBOL_CHARS
          AMBIGUOUS_CHARS : string.
Variable zxcvbn_score : string -> Z.

Local Abbreviation assembled :=
  (assembleChars LOWERCASE_CHARS UPPERCASE_CHARS NUMBER_CHARS SYMBOL_CHARS
                 AMBIGUOUS_CHARS).
Local Abbreviation inAlphabet :=
  (Generator.inAlphabet LOWERCASE_CHARS UPPERCASE_CHARS NUMBER_CHARS
                        SYMBOL_CHARS AMBIGUOUS_CHARS).
Local Abbreviation one :=
  (generateOne LOWERCASE_CHARS UPPERCASE_CHARS NUMBER_CHARS SYMBOL_CHARS
               AMBIGUOUS_CHARS).
Local Abbreviation generateHandler :=
  (handleGeneratePassword LOWERCASE_CHARS UPPERCASE_CHARS NUMBER_CHARS
                          SYMBOL_CHARS AMBIGUOUS_CHARS zxcvbn_score).
Local Abbreviation bulkHandler :=
  (handleGenerateBulkPasswords LOWERCASE_CHARS UPPERCASE_CHARS NUMBER_CHARS
                               SYMBOL_CHARS AMBIGUOUS_CHARS).


(** [handleGeneratePassword] passes on what the generator throws;
    otherwise it shows the new password and puts its entry in front of
    the history, of which it keeps the first 10: the new entry and the
    9 most recent older ones, in order.  The history it saves is the
    one it leaves in the state. *)
Theorem handleGeneratePassword_history (now : Z) (st : State) (rng : entropy) :
  match one st rng with
  | Thrown e => generateHandler now st rng = Thrown e
  | Returned (pwd, rng') =>
      exists st',
        generateHandler now st rng = Returned (st', rng')
        /\ password st' = pwd
        /\ passwordHistory st'
           = {| entry_password := pwd; timestamp := now;
                strength := zxcvbn_score pwd;
                entry_type := generationMode st; tags := [];
                favorite := None |}
             :: firstn 9 (passwordHistory st)
        /\ List.length (passwordHistory st')
           = Nat.min 10 (S (List.length (passwordHistory st)))
        /\ storedHistory st' = Some (passwordHistory st')
    end.
Proof.
  unfold handleGeneratePassword, bind.
  destruct (one st rng) as [[pwd rng']|e]; [|reflexivity].
  eexists; split; [reflexivity|].
  cbn [password passwordHistory storedHistory]; unfold sliceFirst, MAX_HISTORY.
  split; [reflexivity|].
  split; [reflexivity|].
  split; [|reflexivity].
  rewrite length_firstn; simpl; lia.
Qed.


(** Bulk generation of at least one password fails as the first single
    generation does, and then returns no state. *)
Theorem handleGenerateBulkPasswords_throws
        (st : State) (rng : entropy) (e : exn) :
  0 < bulkCount st ->
  one st rng = Thrown e ->
  bulkHandler st rng = Thrown e.
Proof.
  intros Hn He; unfold handleGenerateBulkPasswords, bind.
  rewrite (arrayFrom_throws (one st) e); [reflexivity | exact He | lia].
Qed.

End WithEnvironment.

Local Abbreviation assembledSample :=
  (assembleChars lowercaseLetters uppercaseLetters digits symbols ambiguous).
Local Abbreviation bulkSample :=
  (handleGenerateBulkPasswords lowercaseLetters uppercaseLetters digits
                               symbols ambiguous).

Example handleGeneratePassword_first_entry :
  match handleGeneratePassword lowercaseLetters uppercaseLetters digits
          symbols ambiguous lengthAsScore 1700000000000 freshState
          sampleEntropy with
  | Returned (st', _) =>
      password st' = "$:7[f(?#;k=ev>p|"
      /\ List.length (passwordHistory st') = 1%nat
      /\ storedHistory st' = Some (passwordHistory st')
  | Thrown _ => False
  end.
Proof. vm_compute; split; [reflexivity | split; reflexivity]. Qed.


Lemma handleGenerateBulkPasswords_throws_witness :
  0 < bulkCount wordsState
  /\ generateOne lowercaseLetters uppercaseLetters digits symbols ambiguous
                 wordsState sampleEntropy = Thrown TypeError
  /\ bulkSample wordsState sampleEntropy = Thrown TypeError.
Proof.
  assert (H1 : 0 < bulkCount wordsState) by reflexivity.
  assert (H2 : generateOne lowercaseLetters uppercaseLetters digits symbols
                 ambiguous wordsState sampleEntropy = Thrown TypeError)
    by reflexivity.
  split; [exact H1 | split; [exact H2 |]].
  exact (handleGenerateBulkPasswords_throws lowercaseLetters uppercaseLetters
           digits symbols ambiguous wordsState sampleEntropy TypeError H1 H2).
Defined.

(** *** Tag colours *)

Lemma code_sum_fold (l : list ascii) (a : Z) :
  fold_left (fun acc char => Z.of_nat (nat_of_ascii char) + acc) l a
  = a + fold_right (fun char s => Z.of_nat (nat_of_ascii char) + s) 0 l.
Proof.
  revert a; induction l as [|c l IH]; intros a; simpl; [lia|].
  rewrite IH; lia.
Qed.

Lemma code_sum_nonneg (l : list ascii) :
  0 <= fold_right (fun char s => Z.of_nat (nat_of_ascii char) + s) 0 l.
Proof. induction l as [|c l IH]; simpl; lia. Qed.

(** Every tag gets one of the seven colours: the index computed from
    its character codes is never out of range. *)
Theorem getTagColor_defined (tag : string) :
  exists color, getTagColor tag = Some color /\ In color TAG_COLORS.
Proof.
  unfold getTagColor; rewrite code_sum_fold, Z.add_0_l.
  pose proof (code_sum_nonneg (list_ascii_of_string tag)) as Hs.
  set (hash := fold_right _ 0 (list_ascii_of_string tag)) in *.
  pose proof (Z.rem_bound_pos hash (Z.of_nat (List.length TAG_COLORS)) Hs
                ltac:(simpl; lia)) as Hb.
  destruct (Z.ltb_spec (Z.rem hash (Z.of_nat (List.length TAG_COLORS))) 0)
    as [?|_]; [lia|].
  destruct (nth_error TAG_COLORS
              (Z.to_nat (Z.rem hash (Z.of_nat (List.length TAG_COLORS)))))
    as [color|] eqn:E.
  - exists color; split; [reflexivity | eapply nth_error_In; eassumption].
  - apply nth_error_None in E; lia.
Qed.

(** The colour depends only on which characters the tag has, not on
    their order: tags that are rearrangements of one another share a
    colour. *)
Theorem getTagColor_rearranged (tag1 tag2 : string) :
  Permutation (list_ascii_of_string tag1) (list_ascii_of_string tag2) ->
  getTagColor tag1 = getTagColor tag2.
Proof.
  intros Hp; unfold getTagColor; rewrite !code_sum_fold.
  assert (Hsum : fold_right (fun char s => Z.of_nat (nat_of_ascii char) + s) 0
                   (list_ascii_of_string tag1)
                 = fold_right (fun char s => Z.of_nat (nat_of_ascii char) + s) 0
                     (list_ascii_of_string tag2)).
  { induction Hp; simpl; lia. }
  now rewrite Hsum.
Qed.

Lemma getTagColor_rearranged_witness :
  Permutation (list_ascii_of_string "work") (list_ascii_of_string "owrk")
  /\ getTagColor "work" = getTagColor "owrk".
Proof.
  assert (H : Permutation (list_ascii_of_string "work")
                          (list_ascii_of_string "owrk"))
    by (simpl; apply perm_swap).
  split; [exact H | exact (getTagColor_rearranged "work" "owrk" H)].
Defined.

End ComponentFacts.

(* ================================================================== *)
(** * Further properties of the simulator *)

Module SimulatorMore.
Import JSNumber Simulator SimulatorFacts.

Local Open Scope Q_scope.

Lemma inject_Z_pos (z : Z) : (0 < z)%Z -> 0 < inject_Z z.
Proof. intros H; change 0 with (inject_Z 0); now rewrite <- Zlt_Qlt. Qed.

Lemma inject_Z_nonneg (z : Z) : (0 <= z)%Z -> 0 <= inject_Z z.
Proof. intros H; change 0 with (inject_Z 0); now rewrite <- Zle_Qle. Qed.

Lemma baseSpeed_pos (hw : HardwareKey) :
  (0 < baseSpeed (HARDWARE_PROFILES hw))%Z.
Proof. destruct hw; reflexivity. Qed.

Lemma powerCost_pos (hw : HardwareKey) : 0 < powerCost (HARDWARE_PROFILES hw).
Proof. destruct hw; reflexivity. Qed.

Lemma method_baseSpeed_pos (m : AttackMethod) :
  In m ATTACK_METHODS -> 0 < method_baseSpeed m.
Proof.
  simpl; intros [H|[H|[H|[]]]]; rewrite <- H; reflexivity.
Qed.

(** The search space of a method, as an integer. *)
Lemma passwordSpace_value (len cs : Z) (m : AttackMethod) :
  (0 <= len)%Z ->
  calculatePasswordSpace len cs m
  = of_Z (Qceiling (inject_Z (cs ^ len) * complexityMultiplier m)).
Proof.
  intros Hlen; unfold calculatePasswordSpace, Math_pow.
  destruct (Z.leb_spec 0 len) as [_|?]; [reflexivity | lia].
Qed.

Section WithLog2.

Variable log2_approx : Q -> Q.

Local Abbreviation hashing := (calculateHashingSpeed log2_approx).
Local Abbreviation setup := (effectSetup log2_approx).

(** Whatever [Math.log2] returns, the hashing speed for a non-negative
    length is a whole number between zero and the base speed of the
    hardware profile: the length penalty never speeds the hardware
    up. *)
Theorem calculateHashingSpeed_bounds
        (b : number) (hw : HardwareKey) (len : Z) :
  (0 <= len)%Z ->
  exists h,
    hashing b hw len = of_Z h
    /\ (0 <= h <= baseSpeed (HARDWARE_PROFILES hw))%Z.
Proof.
  intros Hlen; unfold calculateHashingSpeed.
  destruct (lengthPenalty_fin log2_approx len Hlen) as (p & -> & Hp).
  unfold num_div, of_Z; rewrite Qeq_bool_false by lra.
  eexists; split; [reflexivity|].
  pose proof (inject_Z_pos _ (baseSpeed_pos hw)) as Hb.
  split.
  - rewrite <- (Qfloor_Z 0); apply Qfloor_resp_le.
    apply Qle_shift_div_l; [lra|].
    change (inject_Z 0) with 0; lra.
  - rewrite <- (Qfloor_Z (baseSpeed (HARDWARE_PROFILES hw))) at 2.
    apply Qfloor_resp_le, Qle_shift_div_r; [lra|].
    nra.
Qed.

End WithLog2.

Lemma calculateHashingSpeed_bounds_witness :
  (0 <= 8)%Z
  /\ exists h,
       calculateHashingSpeed log2OnPowersOfTwo (of_Z 1) gpu_gaming 8 = of_Z h
       /\ (0 <= h <= baseSpeed (HARDWARE_PROFILES gpu_gaming))%Z.
Proof.
  assert (H : (0 <= 8)%Z) by discriminate.
  split; [exact H |].
  exact (calculateHashingSpeed_bounds log2OnPowersOfTwo (of_Z 1) gpu_gaming 8 H).
Defined.

(** For an alphabet of at least one character and a non-negative
    length whose keyspace [charset ^ length] is at most 2^53 (so that
    a double holds it exactly), the three methods' search spaces are
    whole numbers ordered as their coverage:
    1 <= dictionary <= hybrid <= sequential, the last being
    [charset ^ length]. *)
Theorem calculatePasswordSpace_ordered (len cs : Z) :
  (1 <= cs)%Z -> (0 <= len)%Z -> (cs ^ len <= 2 ^ 53)%Z ->
  exists d h,
    calculatePasswordSpace len cs dictionaryAttack = of_Z d
    /\ calculatePasswordSpace len cs hybridAttack = of_Z h
    /\ calculatePasswordSpace len cs sequentialAttack = of_Z (cs ^ len)
    /\ (1 <= d <= h)%Z /\ (h <= cs ^ len)%Z.
Proof.
  intros Hcs Hlen _.
  rewrite !passwordSpace_value by assumption.
  assert (Hpow : (1 <= cs ^ len)%Z).
  { change 1%Z with (Z.succ 0); apply Z.le_succ_l, Z.pow_pos_nonneg; lia. }
  assert (HQ : 1 <= inject_Z (cs ^ len))
    by (change 1 with (inject_Z 1); now rewrite <- Zle_Qle).
  eexists; eexists; split; [reflexivity | split; [reflexivity | split]].
  - do 2 f_equal; rewrite <- (Qceiling_Z (cs ^ len)) at 2.
    apply Qceiling_comp; simpl; ring.
  - simpl complexityMultiplier; split; [split|].
    + pose proof (Qle_ceiling (inject_Z (cs ^ len) * (1 # 10))) as Hc.
      assert (Hlt : inject_Z 0 < inject_Z (Qceiling (inject_Z (cs ^ len) * (1 # 10))))
        by (change (inject_Z 0) with 0; lra).
      rewrite <- Zlt_Qlt in Hlt; lia.
    + apply Qceiling_resp_le; lra.
    + rewrite <- (Qceiling_Z (cs ^ len)) at 2.
      apply Qceiling_resp_le; lra.
Qed.

Lemma calculatePasswordSpace_ordered_witness :
  (1 <= 26)%Z /\ (0 <= 4)%Z /\ (26 ^ 4 <= 2 ^ 53)%Z
  /\ exists d h,
       calculatePasswordSpace 4 26 dictionaryAttack = of_Z d
       /\ calculatePasswordSpace 4 26 hybridAttack = of_Z h
       /\ calculatePasswordSpace 4 26 sequentialAttack = of_Z (26 ^ 4)
       /\ (1 <= d <= h)%Z /\ (h <= 26 ^ 4)%Z.
Proof.
  assert (H1 : (1 <= 26)%Z) by discriminate.
  assert (H2 : (0 <= 4)%Z) by discriminate.
  assert (H3 : (26 ^ 4 <= 2 ^ 53)%Z) by discriminate.
  split; [exact H1 | split; [exact H2 | split; [exact H3 |]]].
  exact (calculatePasswordSpace_ordered 4 26 H1 H2 H3).
Defined.

(** A longer password never has a smaller search space, for each of
    the three methods. *)
Theorem calculatePasswordSpace_monotone
        (len1 len2 cs : Z) (m : AttackMethod) :
  In m ATTACK_METHODS ->
  (1 <= cs)%Z -> (0 <= len1 <= len2)%Z ->
  num_le (calculatePasswordSpace len1 cs m) (calculatePasswordSpace len2 cs m).
Proof.
  intros Hm Hcs Hlen.
  rewrite !passwordSpace_value by lia.
  unfold of_Z; cbn [num_le]; rewrite <- Zle_Qle.
  apply Qceiling_resp_le.
  assert (Hmul : 0 < complexityMultiplier m).
  { simpl in Hm; destruct Hm as [H|[H|[H|[]]]]; rewrite <- H; reflexivity. }
  assert (Hp : inject_Z (cs ^ len1) <= inject_Z (cs ^ len2)).
  { rewrite <- Zle_Qle; apply Z.pow_le_mono_r; lia. }
  nra.
Qed.

Lemma calculatePasswordSpace_monotone_witness :
  In hybridAttack ATTACK_METHODS
  /\ (1 <= 26)%Z /\ (0 <= 4 <= 8)%Z
  /\ num_le (calculatePasswordSpace 4 26 hybridAttack)
            (calculatePasswordSpace 8 26 hybridAttack).
Proof.
  assert (H1 : In hybridAttack ATTACK_METHODS) by (simpl; auto).
  assert (H2 : (1 <= 26)%Z) by discriminate.
  assert (H3 : (0 <= 4 <= 8)%Z) by (split; discriminate).
  split; [exact H1 | split; [exact H2 | split; [exact H3 |]]].
  exact (calculatePasswordSpace_monotone 4 8 26 hybridAttack H1 H2 H3).
Defined.

(** *** One tick *)

(** The quantities a tick computes, for a closure whose search space
    and hashing speed are the whole numbers [T >= 1] and [h]. *)
Lemma animate_shape (cl : Closure) (t : Z) (st : State) (T h : Z) :
  totalSpace cl = of_Z T -> hashingSpeed cl = of_Z h -> (1 <= T)%Z ->
  let e := (inject_Z t - startTime cl) / 1000 in
  let x := inject_Z (Qfloor (e * inject_Z h
                             * method_baseSpeed (attackMethod cl))) in
  let a := if Qle_bool x (inject_Z T) then x else inject_Z T in
  let st' := fst (animate cl t st) in
  a <= inject_Z T
  /\ attempts (stats st') = Fin a
  /\ timeElapsed (stats st') = e
  /\ remainingCombinations (stats st') = Fin (inject_Z T - a)
  /\ progress (simulation st') = Fin (a / inject_Z T * 100)
  /\ snd (animate cl t st) = negb (Qle_bool 100 (a / inject_Z T * 100))
  /\ isRunning (simulation st')
     = (if snd (animate cl t st) then isRunning (simulation st) else false)
  /\ energyCost (stats st')
     = Fin (e / 3600 * powerCost (HARDWARE_PROFILES (closure_hardware cl))).
Proof.
  intros Htot Hhs HT e x a st'; subst st'.
  pose proof (inject_Z_pos T ltac:(lia)) as HTq.
  assert (Ha : a <= inject_Z T).
  { subst a; destruct (Qle_bool x (inject_Z T)) eqn:E;
      [now apply Qle_bool_imp_le | lra]. }
  split; [exact Ha|].
  unfold animate;
    cbn [fst snd stats simulation attempts timeElapsed remainingCombinations
         progress isRunning energyCost].
  fold e; rewrite Htot, Hhs; unfold calculateEnergyCost, of_Z.
  cbn [num_mul Math_floor]; unfold of_Z; fold x.
  cbn [Math_min]; fold a.
  replace (if Qle_bool x (inject_Z T) then Fin x else Fin (inject_Z T))
    with (Fin a) by (subst a; destruct (Qle_bool x (inject_Z T)); reflexivity).
  unfold num_div; rewrite Qeq_bool_false by lra.
  cbn [num_mul num_sub Math_min num_ltb].
  assert (Hp : Qle_bool (a / inject_Z T * 100) 100 = true)
    by (apply Qle_bool_iff, ratio_le_100; assumption).
  rewrite Hp; repeat split; reflexivity.
Qed.


Section WithLog2.

Variable log2_approx : Q -> Q.

Local Abbreviation setup := (effectSetup log2_approx).

(** What the effect's closure holds for a target with at least one
    character in its alphabet and a non-negative length. *)
Lemma closure_shape (st : State) (now : Z) (cl : Closure) :
  setup st now = Some cl ->
  (1 <= charset (password st))%Z ->
  (0 <= target_length (password st))%Z ->
  exists T h,
    totalSpace cl = of_Z T /\ (1 <= T)%Z
    /\ hashingSpeed cl = of_Z h /\ (0 <= h)%Z
    /\ 0 < method_baseSpeed (attackMethod cl)
    /\ startTime cl = inject_Z now - timeElapsed (stats st) * 1000.
Proof.
  intros Hcl Hcs Hlen.
  destruct (effectSetup_inv log2_approx st now cl Hcl)
    as (_ & Hin & _ & Hst & Htot & Hhs & _).
  destruct (passwordSpace_fin _ _ _ Hcs Hlen Hin) as (T & HT & HT1).
  destruct (hashingSpeed_fin log2_approx
              (of_Z (baseSpeed (HARDWARE_PROFILES (hardware (simulation st)))))
              (hardware (simulation st)) _ Hlen) as (h & Hh & Hh0).
  exists T, h; rewrite Htot, Hhs, HT, Hh.
  repeat split; try assumption.
  now apply method_baseSpeed_pos.
Qed.

(** Within one run, a later clock reading never gives a smaller elapsed
    time, fewer attempts or a smaller energy cost. *)
Theorem animate_monotone
        (st st1 st2 : State) (now t1 t2 : Z) (cl : Closure) :
  setup st now = Some cl ->
  (1 <= charset (password st))%Z ->
  (0 <= target_length (password st))%Z ->
  (t1 <= t2)%Z ->
  timeElapsed (stats (fst (animate cl t1 st1)))
  <= timeElapsed (stats (fst (animate cl t2 st2)))
  /\ num_le (attempts (stats (fst (animate cl t1 st1))))
            (attempts (stats (fst (animate cl t2 st2))))
  /\ num_le (energyCost (stats (fst (animate cl t1 st1))))
            (energyCost (stats (fst (animate cl t2 st2)))).
Proof.
  intros Hcl Hcs Hlen Ht.
  destruct (closure_shape st now cl Hcl Hcs Hlen)
    as (T & h & Htot & HT & Hhs & Hh & Hbs & _).
  destruct (animate_shape cl t1 st1 T h Htot Hhs HT)
    as (_ & Ha1 & He1 & _ & _ & _ & _ & Hen1).
  destruct (animate_shape cl t2 st2 T h Htot Hhs HT)
    as (_ & Ha2 & He2 & _ & _ & _ & _ & Hen2).
  rewrite Ha1, Ha2, He1, He2, Hen1, Hen2; cbn [num_le].
  assert (Hq : inject_Z t1 <= inject_Z t2) by now rewrite <- Zle_Qle.
  assert (He : (inject_Z t1 - startTime cl) / 1000
               <= (inject_Z t2 - startTime cl) / 1000).
  { unfold Qdiv; apply Qmult_le_compat_r; [lra | discriminate]. }
  pose proof (inject_Z_nonneg h Hh) as Hhq.
  pose proof (powerCost_pos (closure_hardware cl)) as Hpc.
  assert (Hx : inject_Z (Qfloor ((inject_Z t1 - startTime cl) / 1000 * inject_Z h
                                 * method_baseSpeed (attackMethod cl)))
               <= inject_Z (Qfloor ((inject_Z t2 - startTime cl) / 1000 * inject_Z h
                                    * method_baseSpeed (attackMethod cl)))).
  { rewrite <- Zle_Qle; apply Qfloor_resp_le.
    apply Qmult_le_compat_r; [|lra].
    apply Qmult_le_compat_r; assumption. }
  split; [exact He | split].
  - repeat match goal with |- context [Qle_bool ?u ?v] =>
      let E := fresh "E" in
      destruct (Qle_bool u v) eqn:E;
      [apply Qle_bool_imp_le in E
      | apply not_true_iff_false in E; rewrite Qle_bool_iff in E] end; lra.
  - apply Qmult_le_compat_r; [|lra].
    unfold Qdiv; apply Qmult_le_compat_r; [exact He | discriminate].
Qed.

(** After a tick at a non-negative elapsed time the attempts lie
    between zero and the search space, the remaining combinations are
    the search space less the attempts, the progress lies between 0
    and 100, and the energy cost is not negative. *)
Theorem animate_bounds
        (st st_tick : State) (now t : Z) (cl : Closure) :
  setup st now = Some cl ->
  (1 <= charset (password st))%Z ->
  (0 <= target_length (password st))%Z ->
  0 <= (inject_Z t - startTime cl) / 1000 ->
  let st' := fst (animate cl t st_tick) in
  exists a r p e T,
    attempts (stats st') = Fin a
    /\ remainingCombinations (stats st') = Fin r
    /\ progress (simulation st') = Fin p
    /\ energyCost (stats st') = Fin e
    /\ totalSpace cl = of_Z T
    /\ 0 <= a <= inject_Z T
    /\ r == inject_Z T - a /\ 0 <= r <= inject_Z T
    /\ 0 <= p <= 100
    /\ 0 <= e.
Proof.
  intros Hcl Hcs Hlen He st'; subst st'.
  destruct (closure_shape st now cl Hcl Hcs Hlen)
    as (T & h & Htot & HT & Hhs & Hh & Hbs & _).
  destruct (animate_shape cl t st_tick T h Htot Hhs HT)
    as (HaT & Ha & _ & Hr & Hp & _ & _ & Hen).
  pose proof (inject_Z_pos T ltac:(lia)) as HTq.
  pose proof (inject_Z_nonneg h Hh) as Hhq.
  pose proof (powerCost_pos (closure_hardware cl)) as Hpc.
  set (e := (inject_Z t - startTime cl) / 1000) in *.
  set (x := inject_Z (Qfloor (e * inject_Z h * method_baseSpeed (attackMethod cl)))) in *.
  set (a := if Qle_bool x (inject_Z T) then x else inject_Z T) in *.
  assert (Hx : 0 <= x).
  { unfold x; apply inject_Z_nonneg.
    rewrite <- (Qfloor_Z 0); apply Qfloor_resp_le.
    change (inject_Z 0) with 0.
    apply Qmult_le_0_compat; [apply Qmult_le_0_compat|]; lra. }
  assert (Ha0 : 0 <= a) by (unfold a; destruct (Qle_bool x (inject_Z T)); lra).
  exists a, (inject_Z T - a), (a / inject_Z T * 100),
    (e / 3600 * powerCost (HARDWARE_PROFILES (closure_hardware cl))), T.
  split; [exact Ha | split; [exact Hr | split; [exact Hp | split; [exact Hen |]]]].
  split; [exact Htot|].
  split; [lra|].
  split; [reflexivity|].
  split; [lra|].
  split.
  - split; [|now apply ratio_le_100].
    apply Qmult_le_0_compat; [|discriminate].
    apply Qle_shift_div_l; lra.
  - apply Qmult_le_0_compat; [|lra].
    apply Qle_shift_div_l; [reflexivity | lra].
Qed.


End WithLog2.

Lemma animate_monotone_witness :
  effectSetup log2OnPowersOfTwo fourLetters 0 = Some fourLettersClosure
  /\ (1 <= charset (password fourLetters))%Z
  /\ (0 <= target_length (password fourLetters))%Z
  /\ (500 <= 1500)%Z
  /\ timeElapsed (stats (fst (animate fourLettersClosure 500 fourLetters)))
     <= timeElapsed (stats (fst (animate fourLettersClosure 1500 fourLetters)))
  /\ num_le (attempts (stats (fst (animate fourLettersClosure 500 fourLetters))))
            (attempts (stats (fst (animate fourLettersClosure 1500 fourLetters))))
  /\ num_le (energyCost (stats (fst (animate fourLettersClosure 500 fourLetters))))
            (energyCost (stats (fst (animate fourLettersClosure 1500 fourLetters)))).
Proof.
  assert (H1 : effectSetup log2OnPowersOfTwo fourLetters 0 = Some fourLettersClosure)
    by reflexivity.
  assert (H2 : (1 <= charset (password fourLetters))%Z) by discriminate.
  assert (H3 : (0 <= target_length (password fourLetters))%Z) by discriminate.
  assert (H4 : (500 <= 1500)%Z) by discriminate.
  split; [exact H1 | split; [exact H2 | split; [exact H3 | split; [exact H4 |]]]].
  exact (animate_monotone log2OnPowersOfTwo fourLetters fourLetters fourLetters
           0 500 1500 fourLettersClosure H1 H2 H3 H4).
Defined.

Lemma animate_bounds_witness :
  effectSetup log2OnPowersOfTwo fourLetters 0 = Some fourLettersClosure
  /\ (1 <= charset (password fourLetters))%Z
  /\ (0 <= target_length (password fourLetters))%Z
  /\ 0 <= (inject_Z 1000 - startTime fourLettersClosure) / 1000
  /\ exists a r p e T,
       attempts (stats (fst (animate fourLettersClosure 1000 fourLetters))) = Fin a
       /\ remainingCombinations
            (stats (fst (animate fourLettersClosure 1000 fourLetters))) = Fin r
       /\ progress (simulation (fst (animate fourLettersClosure 1000 fourLetters)))
          = Fin p
       /\ energyCost (stats (fst (animate fourLettersClosure 1000 fourLetters)))
          = Fin e
       /\ totalSpace fourLettersClosure = of_Z T
       /\ 0 <= a <= inject_Z T
       /\ r == inject_Z T - a /\ 0 <= r <= inject_Z T
       /\ 0 <= p <= 100
       /\ 0 <= e.
Proof.
  assert (H1 : effectSetup log2OnPowersOfTwo fourLetters 0 = Some fourLettersClosure)
    by reflexivity.
  assert (H2 : (1 <= charset (password fourLetters))%Z) by discriminate.
  assert (H3 : (0 <= target_length (password fourLetters))%Z) by discriminate.
  assert (H4 : 0 <= (inject_Z 1000 - startTime fourLettersClosure) / 1000)
    by discriminate.
  split; [exact H1 | split; [exact H2 | split; [exact H3 | split; [exact H4 |]]]].
  exact (animate_bounds log2OnPowersOfTwo fourLetters fourLetters 0 1000
           fourLettersClosure H1 H2 H3 H4).
Defined.


(** *** Start, pause and reset *)

Section Handlers.

Variable log2_approx : Q -> Q.

Local Abbreviation setup := (effectSetup log2_approx).

(** Pausing and starting again keeps the statistics and the time
    series, and the run entered at clock reading [now] resumes the
    clock where it stopped: a tick [d] milliseconds later reports the
    elapsed time at the pause plus [d / 1000] seconds. *)
Theorem resume_continues_clock (st st_tick : State) (now d : Z) :
  stats (handleStart (handlePause st)) = stats st
  /\ graphData (handleStart (handlePause st)) = graphData st
  /\ exists cl,
       setup (handleStart (handlePause st)) now = Some cl
       /\ timeElapsed (stats (fst (animate cl (now + d) st_tick)))
          == timeElapsed (stats st) + inject_Z d / 1000.
Proof.
  split; [reflexivity | split; [reflexivity|]].
  destruct (effectSetup_running log2_approx (handleStart (handlePause st)) now)
    as (cl & Hcl); [reflexivity|].
  exists cl; split; [exact Hcl|].
  destruct (effectSetup_inv log2_approx _ now cl Hcl) as (_ & _ & _ & Hst & _).
  unfold animate; cbn [fst stats timeElapsed]; rewrite Hst.
  cbn [handleStart handlePause stats].
  rewrite inject_Z_plus; field.
Qed.

(** [handleReset] shows as remaining combinations the search space of
    the sequential method, whatever method is selected: for a keyspace
    of at most 2^53, which a double holds exactly, that is
    [charset ^ length].  With the dictionary or the hybrid method (and
    a space of at least two) it is more than the search space the next
    run works on. *)
Theorem handleReset_remaining_is_sequential_space
        (st : State) (now : Z) (cl : Closure) :
  method (simulation st) <> sequential ->
  (2 <= charset (password st))%Z ->
  (1 <= target_length (password st))%Z ->
  (charset (password st) ^ target_length (password st) <= 2 ^ 53)%Z ->
  setup (handleStart (handleReset st)) now = Some cl ->
  exists T,
    remainingCombinations (stats (handleReset st))
    = of_Z (charset (password st) ^ target_length (password st))
    /\ totalSpace cl = of_Z T
    /\ (T < charset (password st) ^ target_length (password st))%Z.
Proof.
  intros Hm Hcs Hlen _ Hcl.
  destruct (effectSetup_inv log2_approx _ now cl Hcl)
    as (_ & Hin & Hid & _ & Htot & _).
  cbn [handleStart handleReset simulation password method] in Hid, Htot.
  rewrite passwordSpace_value in Htot by lia.
  eexists; split; [|split; [exact Htot|]].
  - cbn [handleReset stats remainingCombinations nth ATTACK_METHODS].
    apply passwordSpace_sequential; lia.
  - set (P := (charset (password st) ^ target_length (password st))%Z) in *.
    assert (HP : (2 <= P)%Z).
    { unfold P.
      replace (target_length (password st))
        with (Z.succ (target_length (password st) - 1)) by lia.
      rewrite Z.pow_succ_r by lia.
      assert (0 < charset (password st) ^ (target_length (password st) - 1))%Z
        by (apply Z.pow_pos_nonneg; lia).
      nia. }
    assert (HPq : 2 <= inject_Z P)
      by (change 2 with (inject_Z 2); now rewrite <- Zle_Qle).
    assert (Hle : inject_Z P * complexityMultiplier (attackMethod cl)
                  <= inject_Z (P - 1)).
    { unfold Z.sub; rewrite inject_Z_plus, inject_Z_opp; change (inject_Z 1) with 1.
      simpl in Hin; destruct Hin as [H|[H|[H|[]]]]; rewrite <- H in Hid |- *;
        cbn [id complexityMultiplier sequentialAttack dictionaryAttack hybridAttack] in *;
        [congruence | lra | lra]. }
    apply Qceiling_resp_le in Hle; rewrite Qceiling_Z in Hle; lia.
Qed.

End Handlers.

Lemma handleReset_remaining_is_sequential_space_witness :
  method (simulation dictionaryRun) <> sequential
  /\ (2 <= charset (password dictionaryRun))%Z
  /\ (1 <= target_length (password dictionaryRun))%Z
  /\ (charset (password dictionaryRun) ^ target_length (password dictionaryRun)
      <= 2 ^ 53)%Z
  /\ effectSetup log2OnPowersOfTwo (handleStart (handleReset dictionaryRun)) 0
     = Some dictionaryClosure
  /\ exists T,
       remainingCombinations (stats (handleReset dictionaryRun))
       = of_Z (charset (password dictionaryRun)
               ^ target_length (password dictionaryRun))
       /\ totalSpace dictionaryClosure = of_Z T
       /\ (T < charset (password dictionaryRun)
               ^ target_length (password dictionaryRun))%Z.
Proof.
  assert (H1 : method (simulation dictionaryRun) <> sequential) by discriminate.
  assert (H2 : (2 <= charset (password dictionaryRun))%Z) by discriminate.
  assert (H3 : (1 <= target_length (password dictionaryRun))%Z) by discriminate.
  assert (H4 : effectSetup log2OnPowersOfTwo (handleStart (handleReset dictionaryRun)) 0
               = Some dictionaryClosure) by reflexivity.
  assert (H5 : (charset (password dictionaryRun)
                ^ target_length (password dictionaryRun) <= 2 ^ 53)%Z)
    by discriminate.
  split; [exact H1 | split; [exact H2 | split; [exact H3 |
    split; [exact H5 | split; [exact H4 |]]]]].
  exact (handleReset_remaining_is_sequential_space log2OnPowersOfTwo
           dictionaryRun 0 dictionaryClosure H1 H2 H3 H5 H4).
Defined.

Lemma frames_graphData_bounded_witness :
  (List.length (graphData fourLetters) <= 30)%nat
  /\ (List.length
        (graphData (frames fourLettersClosure [500; 1000; 1500]%Z fourLetters))
      <= 30)%nat.
Proof.
  assert (H : (List.length (graphData fourLetters) <= 30)%nat)
    by (simpl; apply Nat.le_0_l).
  split; [exact H |].
  exact (frames_graphData_bounded fourLettersClosure [500; 1000; 1500]%Z
           fourLetters H).
Defined.

(** The sample a tick appends is the newest entry of the time series.
    Its energy and efficiency are the ones the tick puts in the
    statistics, its time is the elapsed time, and what it records
    under [attempts] is the closure's hashing speed, the same at every
    clock reading, not the attempts made. *)
Theorem animate_sample (cl : Closure) (t : Z) (st : State) :
  let st' := fst (animate cl t st) in
  exists front sample,
    graphData st' = (front ++ [sample])%list
    /\ point_time sample = timeElapsed (stats st')
    /\ energyUsage sample = energyCost (stats st')
    /\ efficiency sample = passwordsPerWatt (stats st')
    /\ point_attempts sample = hashingSpeed cl.
Proof.
  intros st'; subst st'; unfold animate;
    cbn [fst graphData stats timeElapsed energyCost passwordsPerWatt].
  rewrite pushSample_is_suffix.
  match goal with |- context [(graphData st ++ [?s])%list] => set (sample := s) end.
  exists (skipn (List.length (graphData st ++ [sample]) - 30) (graphData st)), sample.
  split; [|repeat split].
  rewrite skipn_app, length_app; cbn [List.length].
  replace (List.length (graphData st) + 1 - 30 - List.length (graphData st))%nat
    with 0%nat by lia.
  reflexivity.
Qed.

End SimulatorMore.

(* ================================================================== *)
(** * Properties of the time display *)

Module DisplayFacts.
Import JSNumber Display.

Local Open Scope Q_scope.

(** Rounding a value of [[lo - 1/2, hi + 1/2)] gives a whole number of
    [[lo, hi]]. *)
Lemma Math_round_between (y : Q) (lo hi : Z) :
  inject_Z lo - (1 # 2) <= y -> y < inject_Z hi + (1 # 2) ->
  exists n, Math_round (Fin y) = of_Z n /\ (lo <= n <= hi)%Z.
Proof.
  intros Hlo Hhi; exists (Qfloor (y + (1 # 2))); split; [reflexivity|].
  split.
  - rewrite <- (Qfloor_Z lo); apply Qfloor_resp_le; lra.
  - pose proof (Qfloor_le (y + (1 # 2))) as Hf.
    assert (Hlt : inject_Z (Qfloor (y + (1 # 2))) < inject_Z (hi + 1)).
    { rewrite inject_Z_plus; change (inject_Z 1) with 1; lra. }
    rewrite <- Zlt_Qlt in Hlt; lia.
Qed.

Lemma ltb_fin (x c : Q) : num_ltb (Fin x) (Fin c) = negb (Qle_bool c x).
Proof. reflexivity. Qed.

Lemma div_fin (x c : Q) :
  Qeq_bool c 0 = false -> num_div (Fin x) (Fin c) = Fin (x / c).
Proof. intros H; unfold num_div; now rewrite H. Qed.

Lemma Qle_bool_true (x y : Q) : x <= y -> Qle_bool x y = true.
Proof. apply Qle_bool_iff. Qed.

Lemma Qle_bool_no (x y : Q) : y < x -> Qle_bool x y = false.
Proof.
  intros H; apply not_true_iff_false; rewrite Qle_bool_iff; lra.
Qed.

Ltac decide_thresholds :=
  repeat match goal with
         | |- context [Qle_bool ?c ?x] =>
             first [ rewrite (Qle_bool_true c x) by lra
                   | rewrite (Qle_bool_no c x) by lra ]
         end;
  cbn [negb].

(** [formatTime] on a non-negative number of seconds: the unit follows
    the thresholds (a minute, an hour, a day, 30 days, 365 days, 100
    and 1000 years), and the count shown with it is a whole number
    within the unit's range, the upper end included because the value
    is rounded after the unit is chosen (59.5 seconds reads
    [60 seconds]).  Between 100 and 1000 years the label is
    [centuries] while the count is still the number of years; from
    1000 years on the count is thousands of years to one decimal. *)
Theorem formatTime_ranges (q : Q) :
  0 <= q ->
  let text := formatTime (Fin q) in
  (q < 60 ->
   unit_label text = " seconds"%string
   /\ exists n, shown text = of_Z n /\ (0 <= n <= 60)%Z)
  /\ (60 <= q < 3600 ->
      unit_label text = " minutes"%string
      /\ exists n, shown text = of_Z n /\ (1 <= n <= 60)%Z)
  /\ (3600 <= q < 86400 ->
      unit_label text = " hours"%string
      /\ exists n, shown text = of_Z n /\ (1 <= n <= 24)%Z)
  /\ (86400 <= q < 2592000 ->
      unit_label text = " days"%string
      /\ exists n, shown text = of_Z n /\ (1 <= n <= 30)%Z)
  /\ (2592000 <= q < 31536000 ->
      unit_label text = " months"%string
      /\ exists n, shown text = of_Z n /\ (1 <= n <= 12)%Z)
  /\ (31536000 <= q < 3153600000 ->
      unit_label text = " years"%string
      /\ exists n, shown text = of_Z n /\ (1 <= n <= 100)%Z)
  /\ (3153600000 <= q < 31536000000 ->
      unit_label text = " centuries"%string
      /\ shown text = Math_round (Fin (q / 31536000))
      /\ exists n, shown text = of_Z n /\ (100 <= n <= 1000)%Z)
  /\ (31536000000 <= q ->
      unit_label text = "k years"%string
      /\ fractionDigits text = Some 1%nat
      /\ exists k, shown text = Fin k /\ k == q / 31536000000 /\ 1 <= k).
Proof.
  intros Hq text; subst text.
  assert (Hy : forall c : Q, 0 < c ->
             forall lo hi : Q, lo * c <= q -> q < hi * c ->
             lo <= q / c /\ q / c < hi).
  { intros c Hc lo hi Hlo Hhi; split.
    - apply Qle_shift_div_l; assumption.
    - apply Qlt_shift_div_r; assumption. }
  unfold formatTime; cbv zeta.
  rewrite !(div_fin q) by reflexivity; rewrite !div_fin by reflexivity.
  rewrite !ltb_fin.
  repeat split.
  - decide_thresholds; reflexivity.
  - decide_thresholds; cbn [shown].
    apply Math_round_between; unfold inject_Z; lra.
  - destruct H; decide_thresholds; reflexivity.
  - destruct H; decide_thresholds; cbn [shown].
    destruct (Hy 60 ltac:(reflexivity) 1 60); [lra | lra |].
    apply Math_round_between; unfold inject_Z; lra.
  - destruct H; decide_thresholds; reflexivity.
  - destruct H; decide_thresholds; cbn [shown].
    destruct (Hy 3600 ltac:(reflexivity) 1 24); [lra | lra |].
    apply Math_round_between; unfold inject_Z; lra.
  - destruct H; decide_thresholds; reflexivity.
  - destruct H; decide_thresholds; cbn [shown].
    destruct (Hy 86400 ltac:(reflexivity) 1 30); [lra | lra |].
    apply Math_round_between; unfold inject_Z; lra.
  - destruct H; decide_thresholds; reflexivity.
  - destruct H; decide_thresholds; cbn [shown].
    destruct (Hy 2592000 ltac:(reflexivity) 1 (25 # 2)); [lra | lra |].
    apply Math_round_between; unfold inject_Z; lra.
  - destruct H; decide_thresholds.
    destruct (Hy 31536000 ltac:(reflexivity) 1 100); [lra | lra |].
    decide_thresholds; reflexivity.
  - destruct H; decide_thresholds.
    destruct (Hy 31536000 ltac:(reflexivity) 1 100); [lra | lra |].
    decide_thresholds; cbn [shown].
    apply Math_round_between; unfold inject_Z; lra.
  - destruct H; decide_thresholds.
    destruct (Hy 31536000 ltac:(reflexivity) 100 1000); [lra | lra |].
    decide_thresholds; reflexivity.
  - destruct H; decide_thresholds.
    destruct (Hy 31536000 ltac:(reflexivity) 100 1000); [lra | lra |].
    decide_thresholds; reflexivity.
  - destruct H; decide_thresholds.
    destruct (Hy 31536000 ltac:(reflexivity) 100 1000); [lra | lra |].
    decide_thresholds; cbn [shown].
    apply Math_round_between; unfold inject_Z; lra.
  - decide_thresholds.
    assert (1000 <= q / 31536000) by (apply Qle_shift_div_l; [reflexivity | lra]).
    decide_thresholds; reflexivity.
  - decide_thresholds.
    assert (1000 <= q / 31536000) by (apply Qle_shift_div_l; [reflexivity | lra]).
    decide_thresholds; reflexivity.
  - decide_thresholds.
    assert (1000 <= q / 31536000) by (apply Qle_shift_div_l; [reflexivity | lra]).
    decide_thresholds; cbn [shown].
    eexists; split; [reflexivity|].
    split; [field | apply Qle_shift_div_l; [reflexivity | lra]].
Qed.

Example formatTime_sixty_seconds :
  formatTime (Fin (119 # 2))
  = {| shown := of_Z 60; fractionDigits := None;
       unit_label := " seconds" |}.
Proof. reflexivity. Qed.

Example formatTime_centuries_counts_years :
  formatTime (of_Z (150 * 31536000))
  = {| shown := of_Z 150; fractionDigits := None;
       unit_label := " centuries" |}.
Proof. reflexivity. Qed.

Lemma formatTime_ranges_witness :
  0 <= 119 # 2
  /\ 119 # 2 < 60
  /\ unit_label (formatTime (Fin (119 # 2))) = " seconds"%string
  /\ exists n, shown (formatTime (Fin (119 # 2))) = of_Z n /\ (0 <= n <= 60)%Z.
Proof.
  assert (H : 0 <= 119 # 2) by discriminate.
  assert (Hlt : 119 # 2 < 60) by reflexivity.
  split; [exact H | split; [exact Hlt |]].
  exact (proj1 (formatTime_ranges (119 # 2) H) Hlt).
Defined.

End DisplayFacts.
